(** * PyOS: the simulated shell of [PyOS.py]

    A shallow embedding of the virtual file system, the command handlers
    and the prompt loop of class [PyOS], followed by the properties of the
    shell that the specification states.

    Conventions of the embedding.
    - A node of the tree is a Python dict with a ["type"] tag and either
      ["children"] or ["content"]; it becomes the two-constructor type
      [node].  A ["children"] dict becomes a [gmap string node]: keys are
      unique, and the only place where the order of keys is observed
      ([_ls]) sorts them first.
    - Every dict that a handler stores in the tree is created by that very
      statement, so no dict ever has two parents and the tree is never
      shared.  An in-place update of the dict found by walking
      [current_path] from the root is therefore the functional update of the
      tree at that path ([update_dir]).
    - Handlers run in the monad [sh]: they thread the session object
      ([self]), append to standard output, and either return or raise.
    - Standard output is the exact character stream: [print x] appends
      [x] and a newline.
    - Strings are byte strings: the UTF-8 encoding of the text.  [sorted]
      compares them byte by byte, which on UTF-8 text is the order of the
      code points that Python uses; [split] and [strip] recognise the
      encodings of all the characters that Python counts as white
      space. *)

From Stdlib Require Import Ascii Btauto.
From Stdlib Require String OrdersEx.
From stdpp Require Import gmap strings list fin_maps sorting.

(** ** Data model *)

#[warnings="-register-all"]
Inductive node : Type :=
  | Dir (children : gmap string node)
  | File (content : string).

(** A directory is known by its ["children"] dict. *)
Abbreviation directory := (gmap string node).

(** The attributes of a [PyOS] object that change or are read by the
    handlers ([hostname] is the constant below, [commands] the table
    [_get_commands]). *)
Record PyOS : Type := mkPyOS {
  user : string;
  file_system : directory;
  current_path : list string
}.

Definition hostname : string := "pyos-main".

Definition set_current_path (p : list string) (self : PyOS) : PyOS :=
  {| user := user self; file_system := file_system self; current_path := p |}.

Definition set_file_system (fs : directory) (self : PyOS) : PyOS :=
  {| user := user self; file_system := fs; current_path := current_path self |}.

(** [PyOS.__init__]: the seed layout and the home directory as the
    starting point. *)
Definition welcome_text : string :=
  "Welcome to PyOS! Type 'help' to see available commands.".

Definition __init__ (user : string) : PyOS :=
  {| user := user;
     file_system :=
       <["home" := Dir (<[user := Dir (<["welcome.txt" := File welcome_text]> ∅)]> ∅)]>
       (<["etc" := Dir (<["os-release" := File "PyOS Version 1.0 (Simulated)"]> ∅)]> ∅);
     current_path := ["home"; user] |}.

(** ** Exceptions *)

Inductive exn : Type :=
  | TypeError (msg : string)
  | KeyError (msg : string)
  | ValueError (msg : string)
  | IndexError (msg : string)
  | SystemExit (code : Z).

(** [isinstance(e, Exception)]: [SystemExit] derives from [BaseException]
    only. *)
Definition is_Exception (e : exn) : bool :=
  match e with
  | SystemExit _ => false
  | _ => true
  end.

(** [str(e)]. *)
Definition str_exn (e : exn) : string :=
  match e with
  | TypeError m | KeyError m | ValueError m | IndexError m => m
  | SystemExit _ => ""
  end.

(** ** The handler monad: session state, standard output, exceptions *)

Definition sh (A : Type) : Type := PyOS -> PyOS * string * (exn + A).

Definition ret {A} (a : A) : sh A := fun self => (self, "", inr a).

Definition bind {A B} (m : sh A) (k : A -> sh B) : sh B :=
  fun self =>
    match m self with
    | (self1, out1, inl e) => (self1, out1, inl e)
    | (self1, out1, inr a) =>
        match k a self1 with
        | (self2, out2, r) => (self2, out1 +:+ out2, r)
        end
    end.

Notation "'let*' x ':=' m 'in' k" := (bind m (fun x => k))
  (at level 10, x name, m at level 100, k at level 200).
Notation "m ';;' k" := (bind m (fun _ => k))
  (at level 100, k at level 200, right associativity).

Definition raise {A} (e : exn) : sh A := fun self => (self, "", inl e).

Definition get_self : sh PyOS := fun self => (self, "", inr self).

Definition modify_self (f : PyOS -> PyOS) : sh unit :=
  fun self => (f self, "", inr tt).

(** [try: body except <classes>: handler]; [handles e] tells whether [e]
    is an instance of one of the listed classes. *)
Definition try_except {A} (body : sh A) (handles : exn -> bool)
    (handler : exn -> sh A) : sh A :=
  fun self =>
    match body self with
    | (self1, out1, inl e) =>
        if handles e then
          match handler e self1 with
          | (self2, out2, r) => (self2, out1 +:+ out2, r)
          end
        else (self1, out1, inl e)
    | r => r
    end.

Definition nl : string := String (ascii_of_nat 10) "".

(** [print(x, end=e)] and [print(x)]. *)
Definition print_end (x e : string) : sh unit :=
  fun self => (self, x +:+ e, inr tt).

Definition print (x : string) : sh unit := print_end x nl.

(** [for x in l: body(x)]. *)
Fixpoint for_each {A} (l : list A) (body : A -> sh unit) : sh unit :=
  match l with
  | [] => ret tt
  | x :: l' => body x ;; for_each l' body
  end.

(** ** Path resolution *)

(** The loop of [_get_node_from_path], started at [node]. *)
Fixpoint walk (node : directory) (path_list : list string) : option directory :=
  match path_list with
  | [] => Some node
  | part :: rest =>
      match node !! part with
      | Some (Dir children) => walk children rest
      | _ => None
      end
  end.

Definition _get_node_from_path (self : PyOS) (path_list : list string)
    : option directory :=
  walk (file_system self) path_list.

Definition _get_current_node (self : PyOS) : option directory :=
  _get_node_from_path self (current_path self).

(** What subscripting [None] raises. *)
Definition NoneType_error : exn :=
  TypeError "'NoneType' object is not subscriptable".

(** [node["children"]] where [node] may be [None]. *)
Definition subscript_children (node : option directory) : sh directory :=
  match node with
  | Some children => ret children
  | None => raise NoneType_error
  end.

(** [d[k]] on a dict. *)
Definition getitem (d : directory) (k : string) : sh node :=
  match d !! k with
  | Some item => ret item
  | None => raise (KeyError ("'" +:+ k +:+ "'"))
  end.

(** The tree after [f] has been applied, in place, to the directory that
    [walk] reaches along [path].  The handlers update a node only after
    [walk] has returned it, so the branch for a path that does not resolve
    is never taken; it leaves the tree as it is. *)
Fixpoint update_dir (path : list string) (f : directory -> directory)
    (node : directory) : directory :=
  match path with
  | [] => f node
  | part :: rest =>
      match node !! part with
      | Some (Dir children) => <[part := Dir (update_dir rest f children)]> node
      | _ => node
      end
  end.

(** The session once [f] has been applied in place to the current node. *)
Definition updated (f : directory -> directory) (self : PyOS) : PyOS :=
  set_file_system (update_dir (current_path self) f (file_system self)) self.

(** [current_node["children"][name] = item] and
    [del current_node["children"][name]], [current_node] being the object
    returned by [_get_current_node]. *)
Definition setitem_current (name : string) (item : node) : sh unit :=
  modify_self (updated (insert name item)).

Definition delitem_current (name : string) : sh unit :=
  modify_self (updated (delete name)).

(** ** List primitives that can raise *)

(** [l.index(x)]. *)
Fixpoint index_from (l : list string) (x : string) (i : nat) : option nat :=
  match l with
  | [] => None
  | y :: l' => if decide (y = x) then Some i else index_from l' x (S i)
  end.

Definition index (l : list string) (x : string) : sh nat :=
  match index_from l x 0 with
  | Some i => ret i
  | None => raise (ValueError ("'" +:+ x +:+ "' is not in list"))
  end.

(** [l[i]] for [i >= 0]. *)
Definition getitem_list (l : list string) (i : nat) : sh string :=
  match l !! i with
  | Some x => ret x
  | None => raise (IndexError "list index out of range")
  end.

(** [sep.join(l)]. *)
Definition join (sep : string) (l : list string) : string := String.concat sep l.

(** [sorted(l)] on strings: ascending in the lexicographic order of the
    character codes. *)
Definition str_le (a b : string) : Prop := String.leb a b = true.

#[global] Instance str_le_dec (a b : string) : Decision (str_le a b).
Proof. unfold str_le. apply _. Defined.

Definition sorted (l : list string) : list string := merge_sort str_le l.

(** [list(d.keys())]. *)
Definition keys (d : directory) : list string := (map_to_list d).*1.

(** ** Command implementations *)

Definition path_str (self : PyOS) : string :=
  match current_path self with
  | [] => "/"
  | _ :: _ => "/" +:+ join "/" (current_path self)
  end.

Definition _get_prompt (self : PyOS) : string :=
  user self +:+ "@" +:+ hostname +:+ ":" +:+ path_str self +:+ "$ ".

Definition _help (args : list string) : sh unit :=
  print "PyOS Command List:" ;;
  print "  help          - Shows this help message." ;;
  print "  ls [path]     - Lists contents of a directory." ;;
  print "  cd <path>     - Changes the current directory. Use '..' for parent, '/' for root." ;;
  print "  mkdir <name>  - Creates a new directory." ;;
  print "  cat <file>    - Displays the content of a file." ;;
  print "  echo <text> > <file> - Writes text to a file, creating it if necessary." ;;
  print "  rm <name>     - Removes a file or an empty directory." ;;
  print "  pwd           - Prints the current working directory path." ;;
  print "  date          - Displays the current date and time." ;;
  print "  exit          - Exits the PyOS session.".

(** The name as [_ls] shows it. *)
Definition display_name (name : string) (item : node) : string :=
  match item with
  | Dir _ => name +:+ "/"
  | File _ => name
  end.

Definition _ls (args : list string) : sh unit :=
  let* self := get_self in
  let* children := subscript_children (_get_current_node self) in
  let contents := keys children in
  match contents with
  | [] => ret tt
  | _ :: _ =>
      for_each (sorted contents) (fun name =>
        let* item := getitem children name in
        print_end (display_name name item) "  ") ;;
      print ""
  end.

Definition _cd (args : list string) : sh unit :=
  match args with
  | [] => modify_self (fun self => set_current_path ["home"; user self] self)
  | path :: _ =>
      if decide (path = "/") then modify_self (set_current_path [])
      else if decide (path = "..") then
        modify_self (fun self =>
          match current_path self with
          | [] => self
          | _ :: _ => set_current_path (removelast (current_path self)) self
          end)
      else
        let* self := get_self in
        let* children := subscript_children (_get_current_node self) in
        match children !! path with
        | Some (Dir _) =>
            modify_self (fun self => set_current_path (current_path self ++ [path]) self)
        | _ => print ("cd: no such directory: " +:+ path)
        end
  end.

Definition _mkdir (args : list string) : sh unit :=
  match args with
  | [] => print "mkdir: missing operand"
  | dir_name :: _ =>
      let* self := get_self in
      let* children := subscript_children (_get_current_node self) in
      match children !! dir_name with
      | Some _ => print ("mkdir: cannot create directory '" +:+ dir_name +:+ "': File exists")
      | None => setitem_current dir_name (Dir ∅)
      end
  end.

Definition _cat (args : list string) : sh unit :=
  match args with
  | [] => print "cat: missing operand"
  | file_name :: _ =>
      let* self := get_self in
      let* children := subscript_children (_get_current_node self) in
      match children !! file_name with
      | Some (File content) => print content
      | _ => print ("cat: " +:+ file_name +:+ ": No such file or it is a directory")
      end
  end.

Definition _echo (args : list string) : sh unit :=
  try_except
    (let* redirect_index := index args ">" in
     let* file_name := getitem_list args (redirect_index + 1) in
     let content_list := take redirect_index args in
     let content := join " " content_list in
     let* self := get_self in
     let* children := subscript_children (_get_current_node self) in
     setitem_current file_name (File content))
    (fun e => match e with ValueError _ | IndexError _ => true | _ => false end)
    (fun _ => print "Usage: echo <text> > <filename>").

Definition _rm (args : list string) : sh unit :=
  match args with
  | [] => print "rm: missing operand"
  | name :: _ =>
      let* self := get_self in
      let* children := subscript_children (_get_current_node self) in
      match children !! name with
      | None => print ("rm: cannot remove '" +:+ name +:+ "': No such file or directory")
      | Some item_to_remove =>
          match item_to_remove with
          | Dir grandchildren =>
              if decide (grandchildren = ∅) then delitem_current name
              else print ("rm: failed to remove '" +:+ name +:+ "': Directory not empty")
          | File _ => delitem_current name
          end
      end
  end.

Definition _pwd (args : list string) : sh unit :=
  let* self := get_self in
  print (path_str self).

(** [now] is [datetime.datetime.now().strftime("%a %b %d %H:%M:%S %Y")],
    read from the host when the handler runs. *)
Definition _date (now : string) (args : list string) : sh unit :=
  print now.

Definition _exit (args : list string) : sh unit :=
  print "Shutting down PyOS..." ;;
  raise (SystemExit 0).

(** [_get_commands]: the table from verbs to bound methods. *)
Definition _get_commands (now : string) : gmap string (list string -> sh unit) :=
  list_to_map
    [("help", _help); ("ls", _ls); ("cd", _cd); ("mkdir", _mkdir);
     ("cat", _cat); ("echo", _echo); ("rm", _rm); ("pwd", _pwd);
     ("date", _date now); ("exit", _exit)].

(** ** Tokenisation: [str.strip] and [str.split] without arguments *)

(** The white space of [str.split()] and [str.strip()] is the characters
    U+0009..U+000D, U+001C..U+0020, U+0085, U+00A0, U+1680,
    U+2000..U+200A, U+2028, U+2029, U+202F, U+205F and U+3000.  In UTF-8
    they take one, two or three bytes; the first byte of each is never a
    continuation byte, so that in well-formed UTF-8 one of these
    encodings is found only where the character stands. *)

(** The one-byte ones: TAB, LF, VT, FF, CR, the separators FS, GS, RS, US,
    and the space. *)
Definition isspace (c : ascii) : bool :=
  let n := nat_of_ascii c in
  ((9 <=? n)%nat && (n <=? 13)%nat) || ((28 <=? n)%nat && (n <=? 32)%nat).

(** The two-byte ones: U+0085 (C2 85) and U+00A0 (C2 A0). *)
Definition isspace2 (c1 c2 : ascii) : bool :=
  let n1 := nat_of_ascii c1 in
  let n2 := nat_of_ascii c2 in
  (n1 =? 194)%nat && ((n2 =? 133)%nat || (n2 =? 160)%nat).

(** The three-byte ones: U+1680 (E1 9A 80), U+2000..U+200A (E2 80 80..8A),
    U+2028 (E2 80 A8), U+2029 (E2 80 A9), U+202F (E2 80 AF),
    U+205F (E2 81 9F) and U+3000 (E3 80 80). *)
Definition isspace3 (c1 c2 c3 : ascii) : bool :=
  let n1 := nat_of_ascii c1 in
  let n2 := nat_of_ascii c2 in
  let n3 := nat_of_ascii c3 in
  ((n1 =? 225)%nat && (n2 =? 154)%nat && (n3 =? 128)%nat) ||
  ((n1 =? 226)%nat && (n2 =? 128)%nat &&
     (((128 <=? n3)%nat && (n3 <=? 138)%nat) ||
      (n3 =? 168)%nat || (n3 =? 169)%nat || (n3 =? 175)%nat)) ||
  ((n1 =? 226)%nat && (n2 =? 129)%nat && (n3 =? 159)%nat) ||
  ((n1 =? 227)%nat && (n2 =? 128)%nat && (n3 =? 128)%nat).

(** The number of bytes of the white-space character that [s] starts
    with; 0 when it starts with none. *)
Definition space_width (s : string) : nat :=
  match s with
  | EmptyString => 0
  | String c1 s1 =>
      if isspace c1 then 1
      else
        match s1 with
        | EmptyString => 0
        | String c2 s2 =>
            if isspace2 c1 c2 then 2
            else
              match s2 with
              | EmptyString => 0
              | String c3 _ => if isspace3 c1 c2 c3 then 3 else 0
              end
        end
  end.

(** [lstrip_from skip s]: [s] without its leading white space, [skip]
    being the number of bytes of [s] that still belong to a white-space
    character already recognised. *)
Fixpoint lstrip_from (skip : nat) (s : string) : string :=
  match s with
  | EmptyString => EmptyString
  | String c s' =>
      match skip with
      | S k => lstrip_from k s'
      | 0 =>
          match space_width (String c s') with
          | 0 => String c s'
          | S k => lstrip_from k s'
          end
      end
  end.

Definition lstrip (s : string) : string := lstrip_from 0 s.

(** Nothing is left of a string that is white space from here on;
    otherwise its first byte stays. *)
Fixpoint rstrip (s : string) : string :=
  match s with
  | EmptyString => EmptyString
  | String c s' =>
      match lstrip (String c s') with
      | EmptyString => EmptyString
      | _ => String c (rstrip s')
      end
  end.

Definition strip (s : string) : string := rstrip (lstrip s).

(** [split_from skip word s]: the words of [s], the bytes of [word] having
    been read since the last white space, and [skip] bytes of [s] still
    belonging to a white-space character already recognised. *)
Fixpoint split_from (skip : nat) (word : string) (s : string) : list string :=
  match s with
  | EmptyString =>
      match word with
      | EmptyString => []
      | _ => [word]
      end
  | String c s' =>
      match skip with
      | S k => split_from k word s'
      | 0 =>
          match space_width (String c s') with
          | 0 => split_from 0 (word +:+ String c EmptyString) s'
          | S k =>
              match word with
              | EmptyString => split_from k EmptyString s'
              | _ => word :: split_from k EmptyString s'
              end
          end
      end
  end.

Definition split (s : string) : list string := split_from 0 EmptyString s.

(** Some white-space characters that are not ASCII, as UTF-8. *)
Definition nbsp : string := String (ascii_of_nat 194) (String (ascii_of_nat 160) "").
Definition nel : string := String (ascii_of_nat 194) (String (ascii_of_nat 133) "").
Definition em_space : string :=
  String (ascii_of_nat 226) (String (ascii_of_nat 128) (String (ascii_of_nat 131) "")).
Definition ideographic_space : string :=
  String (ascii_of_nat 227) (String (ascii_of_nat 128) (String (ascii_of_nat 128) "")).

(** ** The prompt loop *)

(** The body of the [while True] loop of [run], once [input] has returned
    the line [user_input].  An exception that leaves this body leaves
    [run]. *)
Definition loop_body (now : string) (user_input : string) : sh unit :=
  match strip user_input with
  | EmptyString => ret tt
  | _ =>
      let parts := split user_input in
      let* command := getitem_list parts 0 in
      let args := drop 1 parts in
      match _get_commands now !! command with
      | Some handler =>
          try_except (handler args) is_Exception
            (fun e => print ("An error occurred executing '" +:+ command +:+ "': " +:+ str_exn e))
      | None => print (command +:+ ": command not found")
      end
  end.

(** What [input(prompt)] does: the line typed, stamped with the host's
    clock reading at that time, or [EOFError] / [KeyboardInterrupt]. *)
Inductive input_event : Type :=
  | Line (now : string) (user_input : string)
  | Interrupt.

Inductive status : Type :=
  | Running
  | Terminated.

(** The [while True] loop over the events that [input] delivers; a list
    that runs out leaves the session waiting at the prompt. *)
Fixpoint loop (events : list input_event) (self : PyOS)
    : PyOS * string * status :=
  match events with
  | [] => (self, _get_prompt self, Running)
  | Interrupt :: _ => (self, _get_prompt self +:+ nl +:+ "Exiting." +:+ nl, Terminated)
  | Line now user_input :: events' =>
      match loop_body now user_input self with
      | (self1, out1, inl _) => (self1, _get_prompt self +:+ out1, Terminated)
      | (self1, out1, inr _) =>
          match loop events' self1 with
          | (self2, out2, st) => (self2, _get_prompt self +:+ out1 +:+ out2, st)
          end
      end
  end.

Definition banner : string :=
  "PyOS [Version 1.0]" +:+ nl +:+
  "(c) Simulated Corporation. All rights reserved." +:+ nl +:+ nl.

Definition run (events : list input_event) (self : PyOS) : PyOS * string * status :=
  match loop events self with
  | (self', out, st) => (self', banner +:+ out, st)
  end.

(** The session after the lines [lines] have been typed, and whether it
    is still running. *)
Definition session_after (now : string) (lines : list string) (self : PyOS)
    : PyOS * status :=
  match loop (map (Line now) lines) self with
  | (self', _, st) => (self', st)
  end.

(** ** The specification's path resolution, in its own words *)

(** [reaches root path d]: walking from [root] and following each segment
    of [path] through a child that is a directory ends at [d]. *)
Inductive reaches : directory -> list string -> directory -> Prop :=
  | reaches_here (d : directory) : reaches d [] d
  | reaches_child (d : directory) (seg : string) (children : directory)
      (path : list string) (d' : directory) :
      d !! seg = Some (Dir children) ->
      reaches children path d' ->
      reaches d (seg :: path) d'.

(** Some segment of [path] is missing among the children of the node
    reached so far, or names a file there. *)
Definition blocked (root : directory) (path : list string) : Prop :=
  exists (pre : list string) (seg : string) (suf : list string) (d : directory),
    path = pre ++ seg :: suf /\
    reaches root pre d /\
    (d !! seg = None \/ exists content, d !! seg = Some (File content)).

(** The specification's message for a name that is taken. *)
Definition AlreadyExists_message (name : string) : string :=
  "cannot create directory '" +:+ name +:+ "': File exists".

(** The words [tokens] written one after the other with a single space
    between neighbours: nothing before the first and nothing after the
    last. *)
Fixpoint spaced (tokens : list string) : string :=
  match tokens with
  | [] => ""
  | t :: rest =>
      match rest with
      | [] => t
      | _ :: _ => t +:+ " " +:+ spaced rest
      end
  end.

(** The line that [_ls] prints for the entries [entries]: each entry is
    followed by two spaces, and a newline ends the line; nothing at all is
    printed for an empty directory. *)
Definition ls_text (entries : list string) : string :=
  match entries with
  | [] => ""
  | _ :: _ => foldr (fun entry acc => (entry +:+ "  ") +:+ acc) "" entries +:+ nl
  end.

(** ** Sample sessions *)

(** The home directory of the seed layout. *)
Definition seed_home : directory := <["welcome.txt" := File welcome_text]> ∅.

(** The session of user [user] after the lines [lines], the clock being
    irrelevant. *)
Definition typed (lines : list string) : PyOS :=
  (session_after "" lines (__init__ "user")).1.

(** ** What a computation may raise *)

(** [m] raises nothing but instances of [Exception]: the exceptions that
    the [except Exception] clause of [run] catches. *)
Definition catchable {A} (m : sh A) : Prop :=
  forall self self1 out1 e, m self = (self1, out1, inl e) -> is_Exception e = true.

(** ** The session invariant *)

(** The current path resolves to a directory of the tree. *)
Definition current_path_resolves (self : PyOS) : Prop :=
  is_Some (_get_current_node self).

(** [m] keeps the current path resolving, whether it returns or raises. *)
Definition keeps_current_path {A} (m : sh A) : Prop :=
  forall self, current_path_resolves self -> current_path_resolves (m self).1.1.

(** The session in which the home directory has been emptied and removed,
    and [cd] without an argument typed after that. *)
Definition dangling : PyOS := typed ["rm welcome.txt"; "cd .."; "rm user"; "cd"].

(** ** Words, verbs and paths *)

(** The white-space characters of [str.split()], each by the bytes of its
    UTF-8 encoding: U+0009..U+000D, U+001C..U+0020, U+0085, U+00A0, U+1680,
    U+2000..U+200A, U+2028, U+2029, U+202F, U+205F and U+3000. *)
Definition white_space : list (list nat) :=
  [[9]; [10]; [11]; [12]; [13]; [28]; [29]; [30]; [31]; [32];
   [194; 133]; [194; 160];
   [225; 154; 128];
   [226; 128; 128]; [226; 128; 129]; [226; 128; 130]; [226; 128; 131];
   [226; 128; 132]; [226; 128; 133]; [226; 128; 134]; [226; 128; 135];
   [226; 128; 136]; [226; 128; 137]; [226; 128; 138];
   [226; 128; 168]; [226; 128; 169]; [226; 128; 175];
   [226; 129; 159];
   [227; 128; 128]].

(** [s] starts with the bytes [bytes]. *)
Fixpoint starts_with (bytes : list nat) (s : string) : bool :=
  match bytes with
  | [] => true
  | b :: bytes' =>
      match s with
      | EmptyString => false
      | String c s' => (nat_of_ascii c =? b)%nat && starts_with bytes' s'
      end
  end.

(** Some character of [s] is white space: the encoding of a white-space
    character starts at one of the bytes of [s]. *)
Fixpoint has_space (s : string) : bool :=
  match s with
  | EmptyString => false
  | String c s' =>
      existsb (fun bytes => starts_with bytes (String c s')) white_space || has_space s'
  end.

(** A word: not empty and free of white space. *)
Definition word (w : string) : Prop := w <> "" /\ has_space w = false.

(** No white-space character starts at a byte of [w] when [s] follows
    it. *)
Fixpoint no_space_before (w s : string) : Prop :=
  match w with
  | EmptyString => True
  | String c w' =>
      space_width (String c w' +:+ s) = 0 /\ no_space_before w' s
  end.

(** The keys of the table [_get_commands]. *)
Definition verbs : list string :=
  ["help"; "ls"; "cd"; "mkdir"; "cat"; "echo"; "rm"; "pwd"; "date"; "exit"].

(** Two paths part ways: after a common prefix they continue with
    different segments. *)
Definition diverge (p q : list string) : Prop :=
  exists (r : list string) (a b : string) (p' q' : list string),
    p = r ++ a :: p' /\ q = r ++ b :: q' /\ a <> b.

(** The line that [_echo] prints when it cannot find a file name. *)
Definition usage_line : string := "Usage: echo <text> > <filename>" +:+ nl.

(** What the prompt loop reports when a handler has subscripted [None]. *)
Definition fault_line (command : string) : string :=
  ("An error occurred executing '" +:+ command +:+ "': " +:+ str_exn NoneType_error) +:+ nl.

(** ** What a computation leaves alone *)

(** The session reached by [m], returning or raising, is related by [R] to
    the session it started from. *)
Definition stays {A} (R : PyOS -> PyOS -> Prop) (m : sh A) : Prop :=
  forall self, R self (m self).1.1.

(** Same user and same tree. *)
Definition same_tree (self self1 : PyOS) : Prop :=
  user self1 = user self /\ file_system self1 = file_system self.

(** Same user, same current path, and the same resolution of every path
    that parts ways with the current path. *)
Definition same_elsewhere (self self1 : PyOS) : Prop :=
  user self1 = user self /\
  current_path self1 = current_path self /\
  forall q, diverge (current_path self) q ->
            _get_node_from_path self1 q = _get_node_from_path self q.

(** ** Events that end the session *)

(** [input] raised, or the line's first word is [exit]. *)
Definition ends_session (event : input_event) : Prop :=
  match event with
  | Interrupt => True
  | Line _ user_input => split user_input !! 0 = Some "exit"
  end.

#[global] Instance ends_session_dec (event : input_event) : Decision (ends_session event).
Proof. destruct event; apply _. Defined.

(** * Properties *)

(** ** Tokenisation *)

Example split_words :
  split "  echo hello   world > f.txt " = ["echo"; "hello"; "world"; ">"; "f.txt"].
Proof. reflexivity. Qed.

Example strip_inner_space : strip "  cd  ..  " = "cd  ..".
Proof. reflexivity. Qed.

Example split_blank : split "   " = [] /\ strip "   " = "".
Proof. split; reflexivity. Qed.

(** White space beyond ASCII separates words and is stripped like a
    space. *)
Example split_unicode_space :
  split ("exit" +:+ nbsp +:+ "now") = ["exit"; "now"] /\
  split ("mkdir " +:+ nbsp) = ["mkdir"] /\
  split ("cd" +:+ nbsp) = ["cd"] /\
  split ("mkdir" +:+ nbsp +:+ "a" +:+ em_space +:+ "b") = ["mkdir"; "a"; "b"] /\
  split (ideographic_space +:+ nel) = [] /\
  strip (ideographic_space +:+ nel) = "" /\
  strip (nbsp +:+ "cd" +:+ em_space +:+ ".." +:+ nel) = "cd" +:+ em_space +:+ "..".
Proof. repeat split; vm_compute; reflexivity. Qed.

(** Other characters of several bytes are not white space, whatever bytes
    they share with it: U+00E0, whose second byte is that of U+00A0, and
    the zero-width space U+200B, next to U+200A. *)
Example split_keeps_other_characters :
  split (String (ascii_of_nat 195) (String (ascii_of_nat 160) ""))
    = [String (ascii_of_nat 195) (String (ascii_of_nat 160) "")] /\
  split ("a" +:+ String (ascii_of_nat 226) (String (ascii_of_nat 128)
                   (String (ascii_of_nat 139) "b")))
    = ["a" +:+ String (ascii_of_nat 226) (String (ascii_of_nat 128)
                   (String (ascii_of_nat 139) "b"))].
Proof. split; vm_compute; reflexivity. Qed.

(** ** The seed layout *)

Example session_start :
  _get_prompt (__init__ "alice") = "alice@pyos-main:/home/alice$ " /\
  loop_body "" "pwd" (__init__ "alice") = (__init__ "alice", "/home/alice" +:+ nl, inr tt) /\
  loop_body "" "cat welcome.txt" (__init__ "alice")
    = (__init__ "alice", welcome_text +:+ nl, inr tt) /\
  _get_node_from_path (__init__ "alice") ["etc"]
    = Some (<["os-release" := File "PyOS Version 1.0 (Simulated)"]> ∅).
Proof. repeat split; vm_compute; reflexivity. Qed.

(** ** Equations of the handler monad *)

Section Monad.

Context {A B : Type}.
Implicit Types (k : A -> sh B) (self : PyOS).

Lemma bind_ret (a : A) k self : bind (ret a) k self = k a self.
Proof. unfold bind, ret. by destruct (k a self) as [[??]?]. Qed.

Lemma bind_raise (e : exn) k self : bind (raise e) k self = (self, "", inl e).
Proof. done. Qed.

Lemma bind_returns (m : sh A) k self self1 out1 a :
  m self = (self1, out1, inr a) ->
  bind m k self = (let '(self2, out2, r) := k a self1 in (self2, out1 +:+ out2, r)).
Proof. intros Hm. unfold bind. by rewrite Hm. Qed.

Lemma bind_raises (m : sh A) k self self1 out1 e :
  m self = (self1, out1, inl e) -> bind m k self = (self1, out1, inl e).
Proof. intros Hm. unfold bind. by rewrite Hm. Qed.

Lemma bind_get_self (k' : PyOS -> sh B) self : bind get_self k' self = k' self self.
Proof. unfold bind, get_self. by destruct (k' self self) as [[??]?]. Qed.

Lemma bind_modify_self (f : PyOS -> PyOS) (k' : unit -> sh B) self :
  bind (modify_self f) k' self = k' tt (f self).
Proof. unfold bind, modify_self. by destruct (k' tt (f self)) as [[??]?]. Qed.

Lemma try_except_returns (body : sh A) handles handler self self1 out1 a :
  body self = (self1, out1, inr a) ->
  try_except body handles handler self = (self1, out1, inr a).
Proof. intros Hb. unfold try_except. by rewrite Hb. Qed.

Lemma try_except_raises (body : sh A) handles handler self self1 out1 e :
  body self = (self1, out1, inl e) ->
  try_except body handles handler self =
    if handles e then
      (let '(self2, out2, r) := handler e self1 in (self2, out1 +:+ out2, r))
    else (self1, out1, inl e).
Proof. intros Hb. unfold try_except. by rewrite Hb. Qed.

End Monad.

(** ** The order of [sorted] *)

Lemma str_le_alt a b : str_le a b <-> OrdersEx.String_as_OT.lt a b \/ a = b.
Proof.
  unfold str_le, String.leb.
  change (String.compare a b) with (OrdersEx.String_as_OT.compare a b).
  destruct (OrdersEx.String_as_OT.compare_spec a b) as [Heq|Hlt|Hgt].
  - split; [by right|done].
  - split; [by left|done].
  - split; [done|]. intros [Hlt| ->].
    + destruct (StrictOrder_Irreflexive a). by etrans.
    + by destruct (StrictOrder_Irreflexive b).
Qed.

#[global] Instance str_le_trans : Transitive str_le.
Proof.
  intros a b c. rewrite !str_le_alt. intros [Hab| ->] [Hbc| ->]; auto.
  left. by etrans.
Qed.

#[global] Instance str_le_total : Total str_le.
Proof. intros a b. apply String.leb_total. Qed.

#[global] Instance str_le_antisym : AntiSymm eq str_le.
Proof. intros a b. apply String.leb_antisym. Qed.

Lemma sorted_spec (l : list string) :
  sorted l ≡ₚ l /\ StronglySorted str_le (sorted l).
Proof.
  split; [apply merge_sort_Permutation|].
  apply StronglySorted_merge_sort; apply _.
Qed.

(** Any function that returns the ascending permutation of its argument
    returns what [sorted] returns. *)
Lemma sorted_unique (l l' : list string) :
  l' ≡ₚ l -> StronglySorted str_le l' -> l' = sorted l.
Proof.
  intros Hperm Hsorted. destruct (sorted_spec l) as [Hperm' Hsorted'].
  apply (StronglySorted_unique str_le); [done..|]. by rewrite Hperm'.
Qed.

Lemma elem_of_keys (d : directory) (name : string) :
  name ∈ keys d <-> is_Some (d !! name).
Proof.
  unfold keys. rewrite list_elem_of_fmap. split.
  - intros [[k item] [-> Hin]]. apply elem_of_map_to_list in Hin. by exists item.
  - intros [item Hitem]. exists (name, item). split; [done|].
    by apply elem_of_map_to_list.
Qed.

Lemma NoDup_keys (d : directory) : NoDup (keys d).
Proof. apply NoDup_fst_map_to_list. Qed.

(** ** Path resolution *)

Section Resolution.

Implicit Types (root d : directory) (path : list string).

Lemma walk_reaches root path d : walk root path = Some d <-> reaches root path d.
Proof.
  split.
  - revert root. induction path as [|seg path IH]; intros root Hw; simpl in Hw.
    + injection Hw as <-. constructor.
    + destruct (root !! seg) as [[children|content]|] eqn:Hseg; try discriminate.
      econstructor; eauto.
  - induction 1 as [|d0 seg children path0 d' Hseg _ IH]; simpl; [done|].
    by rewrite Hseg.
Qed.

Lemma walk_app root pre suf :
  walk root (pre ++ suf) = match walk root pre with
                           | Some d => walk d suf
                           | None => None
                           end.
Proof.
  revert root. induction pre as [|seg pre IH]; intros root; simpl; [done|].
  destruct (root !! seg) as [[children|content]|]; auto.
Qed.

Lemma walk_blocked root path : walk root path = None <-> blocked root path.
Proof.
  split.
  - revert root. induction path as [|seg path IH]; intros root Hw; simpl in Hw; [done|].
    destruct (root !! seg) as [[children|content]|] eqn:Hseg.
    + destruct (IH _ Hw) as (pre & seg' & suf & d & -> & Hr & Hd).
      exists (seg :: pre), seg', suf, d. split; [done|]. split; [|done].
      econstructor; eauto.
    + exists [], seg, path, root. repeat split; [constructor|]. right. eauto.
    + exists [], seg, path, root. repeat split; [constructor|]. by left.
  - intros (pre & seg & suf & d & -> & Hr & Hd).
    rewrite walk_app. apply walk_reaches in Hr. rewrite Hr. simpl.
    destruct Hd as [->|[content ->]]; done.
Qed.

(** The in-place update of the directory at [path] is seen by a later
    walk along [path]. *)
Lemma walk_update_dir path f root d :
  walk root path = Some d -> walk (update_dir path f root) path = Some (f d).
Proof.
  revert root. induction path as [|seg path IH]; intros root Hw; simpl in *.
  - by injection Hw as <-.
  - destruct (root !! seg) as [[children|content]|] eqn:Hseg; try discriminate.
    rewrite lookup_insert_eq. by apply IH.
Qed.

End Resolution.

(** C1. Resolving a sequence of path segments walks from the root through
    directory children and returns the directory reached; it returns [None]
    exactly when some segment is absent from, or names a file in, the node
    reached before it; the empty sequence returns the root. *)
Theorem get_node_from_path_spec (self : PyOS) (path_list : list string) :
  _get_node_from_path self [] = Some (file_system self) /\
  (forall d, _get_node_from_path self path_list = Some d <->
             reaches (file_system self) path_list d) /\
  (_get_node_from_path self path_list = None <->
     blocked (file_system self) path_list).
Proof.
  unfold _get_node_from_path. split; [done|]. split.
  - intros d. apply walk_reaches.
  - apply walk_blocked.
Qed.

(** ** Handlers in a session whose current path resolves *)

Section Handlers.

Variables (self : PyOS) (ch : directory).
Hypothesis Hcur : _get_current_node self = Some ch.

Lemma updated_current_node f : _get_current_node (updated f self) = Some (f ch).
Proof using Hcur. apply walk_update_dir, Hcur. Qed.

Lemma index_from_app tokens x rest i :
  x ∉ tokens -> index_from (tokens ++ x :: rest) x i = Some (i + length tokens).
Proof.
  revert i. induction tokens as [|t tokens IH]; intros i Hx; simpl.
  - rewrite decide_True by done. f_equal. lia.
  - apply not_elem_of_cons in Hx as [Hne Hx].
    rewrite decide_False by done. rewrite IH by done. f_equal. lia.
Qed.

Lemma echo_run tokens file_name rest :
  ">" ∉ tokens ->
  _echo (tokens ++ ">" :: file_name :: rest) self =
    (updated (insert file_name (File (join " " tokens))) self, "", inr tt).
Proof using Hcur.
  intros Hgt.
  assert (Hname : (tokens ++ ">" :: file_name :: rest) !! (0 + length tokens + 1)
                  = Some file_name).
  { rewrite lookup_app_r by lia.
    by replace (0 + length tokens + 1 - length tokens) with 1 by lia. }
  assert (Htake : take (0 + length tokens) (tokens ++ ">" :: file_name :: rest)
                  = tokens).
  { simpl. by rewrite take_app_length. }
  unfold _echo. apply try_except_returns.
  unfold index. rewrite index_from_app by done. rewrite bind_ret.
  unfold getitem_list. rewrite Hname, bind_ret, bind_get_self, Hcur, Htake.
  unfold subscript_children. by rewrite bind_ret.
Qed.

Lemma cat_run file_name rest :
  _cat (file_name :: rest) self =
    (self,
     match ch !! file_name with
     | Some (File content) => content +:+ nl
     | _ => ("cat: " +:+ file_name +:+ ": No such file or it is a directory") +:+ nl
     end,
     inr tt).
Proof using Hcur.
  unfold _cat. rewrite bind_get_self, Hcur.
  unfold subscript_children. rewrite bind_ret.
  by destruct (ch !! file_name) as [[?|?]|].
Qed.

Lemma for_each_entries (names : list string) :
  (forall name, name ∈ names -> is_Some (ch !! name)) ->
  exists entries,
    Forall2 (fun name entry =>
               exists item, ch !! name = Some item /\ entry = display_name name item)
            names entries /\
    for_each names (fun name =>
        let* item := getitem ch name in
        print_end (display_name name item) "  ") self
    = (self, foldr (fun entry acc => (entry +:+ "  ") +:+ acc) "" entries, inr tt).
Proof.
  induction names as [|name names IH]; intros Hin.
  - exists []. split; [constructor|done].
  - destruct (Hin name) as [item Hitem]; [by left|].
    destruct IH as (entries & Hall & Hrun).
    { intros n Hn. apply Hin. by right. }
    exists (display_name name item :: entries). split.
    + constructor; [by exists item|done].
    + simpl for_each.
      erewrite bind_returns; last first.
      { unfold getitem. rewrite Hitem, bind_ret. reflexivity. }
      by rewrite Hrun.
Qed.

Lemma ls_run args :
  exists names entries,
    (forall name, name ∈ names <-> is_Some (ch !! name)) /\
    NoDup names /\
    StronglySorted str_le names /\
    Forall2 (fun name entry =>
               exists item, ch !! name = Some item /\ entry = display_name name item)
            names entries /\
    _ls args self = (self, ls_text entries, inr tt).
Proof using Hcur.
  destruct (sorted_spec (keys ch)) as [Hperm Hsorted].
  destruct (for_each_entries (sorted (keys ch))) as (entries & Hall & Hrun).
  { intros name Hname. apply elem_of_keys. by rewrite <- Hperm. }
  exists (sorted (keys ch)), entries.
  split; [|split; [|split; [|split]]]; try done.
  - intros name. by rewrite Hperm, elem_of_keys.
  - rewrite Hperm. apply NoDup_keys.
  - unfold _ls. rewrite bind_get_self, Hcur.
    unfold subscript_children. rewrite bind_ret.
    destruct (keys ch) as [|k ks] eqn:Hkeys.
    + assert (sorted [] = []) as Hnil by done.
      rewrite Hnil in Hall. by inversion Hall.
    + erewrite bind_returns by apply Hrun.
      destruct entries as [|entry entries]; [|done].
      apply Forall2_nil_inv_r in Hall. rewrite Hall in Hperm.
      by apply Permutation_nil_cons in Hperm.
Qed.

Lemma mkdir_run dir_name rest :
  _mkdir (dir_name :: rest) self =
    match ch !! dir_name with
    | Some _ =>
        (self, ("mkdir: cannot create directory '" +:+ dir_name +:+ "': File exists") +:+ nl,
         inr tt)
    | None => (updated (insert dir_name (Dir ∅)) self, "", inr tt)
    end.
Proof using Hcur.
  unfold _mkdir. rewrite bind_get_self, Hcur.
  unfold subscript_children. rewrite bind_ret.
  by destruct (ch !! dir_name).
Qed.

Lemma rm_run name rest :
  _rm (name :: rest) self =
    match ch !! name with
    | None =>
        (self, ("rm: cannot remove '" +:+ name +:+ "': No such file or directory") +:+ nl,
         inr tt)
    | Some (Dir grandchildren) =>
        if decide (grandchildren = ∅) then (updated (delete name) self, "", inr tt)
        else (self, ("rm: failed to remove '" +:+ name +:+ "': Directory not empty") +:+ nl,
              inr tt)
    | Some (File _) => (updated (delete name) self, "", inr tt)
    end.
Proof using Hcur.
  unfold _rm. rewrite bind_get_self, Hcur.
  unfold subscript_children. rewrite bind_ret.
  destruct (ch !! name) as [[grandchildren|content]|]; try done.
  by destruct (decide (grandchildren = ∅)).
Qed.

Lemma cd_name_run path rest :
  path <> "/" -> path <> ".." ->
  _cd (path :: rest) self =
    match ch !! path with
    | Some (Dir _) => (set_current_path (current_path self ++ [path]) self, "", inr tt)
    | _ => (self, ("cd: no such directory: " +:+ path) +:+ nl, inr tt)
    end.
Proof using Hcur.
  intros Hroot Hup. unfold _cd.
  rewrite decide_False by done. rewrite decide_False by done.
  rewrite bind_get_self, Hcur.
  unfold subscript_children. rewrite bind_ret.
  by destruct (ch !! path) as [[?|?]|].
Qed.

End Handlers.

(** ** Handlers in a session whose current path does not resolve *)

Section Dangling.

Variable self : PyOS.
Hypothesis Hnone : _get_current_node self = None.

(** Every handler that reads the current directory raises before it
    prints or changes anything. *)
Lemma handlers_raise (name : string) (rest tokens : list string) :
  _ls rest self = (self, "", inl NoneType_error) /\
  _mkdir (name :: rest) self = (self, "", inl NoneType_error) /\
  _cat (name :: rest) self = (self, "", inl NoneType_error) /\
  _rm (name :: rest) self = (self, "", inl NoneType_error) /\
  (name <> "/" -> name <> ".." ->
   _cd (name :: rest) self = (self, "", inl NoneType_error)) /\
  (">" ∉ tokens ->
   _echo (tokens ++ ">" :: name :: rest) self = (self, "", inl NoneType_error)).
Proof using Hnone.
  repeat split.
  - unfold _ls. by rewrite bind_get_self, Hnone.
  - unfold _mkdir. by rewrite bind_get_self, Hnone.
  - unfold _cat. by rewrite bind_get_self, Hnone.
  - unfold _rm. by rewrite bind_get_self, Hnone.
  - intros Hroot Hup. unfold _cd.
    rewrite decide_False by done. rewrite decide_False by done.
    by rewrite bind_get_self, Hnone.
  - intros Hgt.
    assert (Hname : (tokens ++ ">" :: name :: rest) !! (0 + length tokens + 1)
                    = Some name).
    { rewrite lookup_app_r by lia.
      by replace (0 + length tokens + 1 - length tokens) with 1 by lia. }
    unfold _echo. erewrite try_except_raises; last first.
    { unfold index. rewrite (index_from_app tokens ">" (name :: rest) 0 Hgt), bind_ret.
      unfold getitem_list. rewrite Hname, bind_ret, bind_get_self, Hnone.
      reflexivity. }
    reflexivity.
Qed.

End Dangling.

(** ** echo and cat *)

Example join_words : join " " ["hello"; "world"] = "hello world".
Proof. reflexivity. Qed.

Example join_nothing : join " " [] = "".
Proof. reflexivity. Qed.

(** [" ".join(tokens)] is the tokens with single spaces between them. *)
Lemma join_spaced (tokens : list string) : join " " tokens = spaced tokens.
Proof.
  induction tokens as [|t tokens IH]; [done|].
  destruct tokens as [|t' tokens]; [done|].
  change (join " " (t :: t' :: tokens)) with (t +:+ " " +:+ join " " (t' :: tokens)).
  by rewrite IH.
Qed.

Example spaced_words :
  spaced ["hello"; "world"] = "hello world" /\ spaced ["a"] = "a" /\ spaced [] = "".
Proof. repeat split; reflexivity. Qed.

(** C2. In a session whose current path resolves, [echo t1 .. tk > f]
    (no [ti] being [>]) writes, silently, the file [f] of the current
    directory with the text [t1 t2 .. tk], the tokens with a single space
    between neighbours, and a following [cat f] prints exactly that text
    and a newline; a second [echo .. > f] replaces the content, so that
    [cat f] then prints the second text only. *)
Theorem echo_then_cat (self : PyOS) (ch : directory) (tokens : list string)
    (file_name : string) (rest : list string) :
  _get_current_node self = Some ch ->
  ">" ∉ tokens ->
  exists self1,
    _echo (tokens ++ ">" :: file_name :: rest) self = (self1, "", inr tt) /\
    _get_current_node self1 = Some (<[file_name := File (spaced tokens)]> ch) /\
    _cat [file_name] self1 = (self1, spaced tokens +:+ nl, inr tt) /\
    forall tokens' rest', ">" ∉ tokens' ->
      exists self2,
        _echo (tokens' ++ ">" :: file_name :: rest') self1 = (self2, "", inr tt) /\
        _get_current_node self2 = Some (<[file_name := File (spaced tokens')]> ch) /\
        _cat [file_name] self2 = (self2, spaced tokens' +:+ nl, inr tt).
Proof.
  intros Hcur Hgt. rewrite <- (join_spaced tokens).
  pose proof (updated_current_node self ch Hcur
                (insert file_name (File (join " " tokens)))) as Hcur1.
  eexists. split; [by apply (echo_run self ch)|]. split; [done|]. split.
  { rewrite (cat_run _ _ Hcur1). by rewrite lookup_insert_eq. }
  intros tokens' rest' Hgt'. rewrite <- (join_spaced tokens').
  pose proof (updated_current_node _ _ Hcur1
                (insert file_name (File (join " " tokens')))) as Hcur2.
  rewrite insert_insert_eq in Hcur2.
  eexists. split; [by apply (echo_run _ _ Hcur1)|]. split; [done|].
  rewrite (cat_run _ _ Hcur2). by rewrite lookup_insert_eq.
Qed.

Lemma echo_then_cat_witness :
  _get_current_node (__init__ "user") = Some seed_home /\
  (">" ∉ ["hello"; "world"]) /\
  (exists self1,
    _echo (["hello"; "world"] ++ ">" :: "f.txt" :: []) (__init__ "user") = (self1, "", inr tt) /\
    _get_current_node self1 = Some (<["f.txt" := File "hello world"]> seed_home) /\
    _cat ["f.txt"] self1 = (self1, "hello world" +:+ nl, inr tt) /\
    forall tokens' rest', ">" ∉ tokens' ->
      exists self2,
        _echo (tokens' ++ ">" :: "f.txt" :: rest') self1 = (self2, "", inr tt) /\
        _get_current_node self2 = Some (<["f.txt" := File (spaced tokens')]> seed_home) /\
        _cat ["f.txt"] self2 = (self2, spaced tokens' +:+ nl, inr tt)).
Proof.
  assert (H1 : _get_current_node (__init__ "user") = Some seed_home)
    by (vm_compute; reflexivity).
  assert (H2 : ">" ∉ ["hello"; "world"]) by compute_done.
  split; [exact H1|]. split; [exact H2|].
  exact (echo_then_cat (__init__ "user") seed_home ["hello"; "world"] "f.txt" [] H1 H2).
Defined.

(** The two sessions of the specification, line by line. *)
Example echo_hello_world :
  (loop_body "" "cat f.txt" (typed ["echo hello world > f.txt"])).1.2
  = "hello world" +:+ nl.
Proof. vm_compute. reflexivity. Qed.

Example echo_overwrites :
  (loop_body "" "cat f" (typed ["echo a > f"; "echo b > f"])).1.2 = "b" +:+ nl.
Proof. vm_compute. reflexivity. Qed.



Example echo_over_home :
  (loop_body "" "cat home" (typed ["cd /"; "echo x > home"])).1.2 = "x" +:+ nl /\
  (loop_body "" "cat f" (typed ["echo > f"])).1.2 = nl.
Proof. split; vm_compute; reflexivity. Qed.

(** ** rm *)

Lemma print_not_silent (x : string) : x +:+ nl <> "".
Proof. destruct x; discriminate. Qed.

(** C3. In the current directory, [rm x] on a directory [x] that has a
    child prints the directory-not-empty line and changes nothing; on a
    name that is absent it prints the not-found line and changes nothing;
    and it deletes the entry, silently, exactly when the name is a file or
    an empty directory. *)
Theorem rm_spec (self : PyOS) (ch : directory) (name : string) (rest : list string) :
  _get_current_node self = Some ch ->
  (forall grandchildren,
     ch !! name = Some (Dir grandchildren) -> grandchildren <> ∅ ->
     _rm (name :: rest) self =
       (self, ("rm: failed to remove '" +:+ name +:+ "': Directory not empty") +:+ nl,
        inr tt)) /\
  (ch !! name = None ->
     _rm (name :: rest) self =
       (self, ("rm: cannot remove '" +:+ name +:+ "': No such file or directory") +:+ nl,
        inr tt)) /\
  ((_rm (name :: rest) self = (updated (delete name) self, "", inr tt) /\
    _get_current_node (updated (delete name) self) = Some (delete name ch))
   <-> ((exists content, ch !! name = Some (File content)) \/
        ch !! name = Some (Dir ∅))).
Proof.
  intros Hcur. rewrite (rm_run self ch Hcur). split; [|split].
  - intros grandchildren -> Hne. by rewrite decide_False.
  - by intros ->.
  - split.
    + intros [Hrun _].
      destruct (ch !! name) as [[grandchildren|content]|]; [|by eauto|].
      * destruct (decide (grandchildren = ∅)) as [->|]; [by right|].
        injection Hrun as _ Hout. by apply print_not_silent in Hout.
      * injection Hrun as _ Hout. by apply print_not_silent in Hout.
    + intros Hfile. split; [|by apply updated_current_node].
      destruct Hfile as [[content ->]| ->]; [done|]. by rewrite decide_True.
Qed.

Lemma rm_spec_witness :
  _get_current_node (__init__ "user") = Some seed_home /\
  (forall grandchildren,
     seed_home !! "welcome.txt" = Some (Dir grandchildren) -> grandchildren <> ∅ ->
     _rm ("welcome.txt" :: []) (__init__ "user") =
       (__init__ "user",
        ("rm: failed to remove '" +:+ "welcome.txt" +:+ "': Directory not empty") +:+ nl,
        inr tt)) /\
  (seed_home !! "welcome.txt" = None ->
     _rm ("welcome.txt" :: []) (__init__ "user") =
       (__init__ "user",
        ("rm: cannot remove '" +:+ "welcome.txt" +:+ "': No such file or directory") +:+ nl,
        inr tt)) /\
  ((_rm ("welcome.txt" :: []) (__init__ "user")
      = (updated (delete "welcome.txt") (__init__ "user"), "", inr tt) /\
    _get_current_node (updated (delete "welcome.txt") (__init__ "user"))
      = Some (delete "welcome.txt" seed_home))
   <-> ((exists content, seed_home !! "welcome.txt" = Some (File content)) \/
        seed_home !! "welcome.txt" = Some (Dir ∅))).
Proof.
  assert (H1 : _get_current_node (__init__ "user") = Some seed_home)
    by (vm_compute; reflexivity).
  split; [exact H1|].
  exact (rm_spec (__init__ "user") seed_home "welcome.txt" [] H1).
Defined.

(** The three outcomes on the seed layout: [home] is not empty, [nothing]
    is absent, [welcome.txt] is a file. *)
Example rm_outcomes :
  loop_body "" "rm home" (typed ["cd /"])
    = (typed ["cd /"], "rm: failed to remove 'home': Directory not empty" +:+ nl, inr tt) /\
  loop_body "" "rm nothing" (__init__ "user")
    = (__init__ "user", "rm: cannot remove 'nothing': No such file or directory" +:+ nl, inr tt) /\
  _get_current_node (typed ["rm welcome.txt"]) = Some ∅.
Proof. repeat split; vm_compute; reflexivity. Qed.

(** ** mkdir *)

Lemma filter_absent (l : list string) (x : string) :
  x ∉ l -> filter (fun k => k = x) l = [].
Proof.
  induction l as [|y l IH]; intros Hx; [done|].
  apply not_elem_of_cons in Hx as [Hne Hx].
  rewrite filter_cons, decide_False by done. by apply IH.
Qed.

Lemma count_NoDup (l : list string) (x : string) :
  NoDup l -> x ∈ l -> length (filter (fun k => k = x) l) = 1.
Proof.
  induction 1 as [|y l Hy Hnd IH]; intros Hin; [by apply elem_of_nil in Hin|].
  rewrite filter_cons. destruct (decide (y = x)) as [->|Hne].
  - by rewrite filter_absent.
  - apply IH. by apply elem_of_cons in Hin as [->|Hin].
Qed.

(** C4. In the current directory, [mkdir x] followed by [mkdir x] makes
    the second call fail: it prints, behind the tag [mkdir: ], the message
    [cannot create directory 'x': File exists] and changes nothing, so that
    the directory has exactly one child named [x]; and [mkdir x] over an
    existing child of either kind prints that line and leaves the session
    as it was. *)
Theorem mkdir_twice (self : PyOS) (ch : directory) (x : string) (rest rest' : list string) :
  _get_current_node self = Some ch ->
  (exists self1 out1 ch1,
     _mkdir (x :: rest) self = (self1, out1, inr tt) /\
     _get_current_node self1 = Some ch1 /\
     _mkdir (x :: rest') self1 =
       (self1, ("mkdir: " +:+ AlreadyExists_message x) +:+ nl, inr tt) /\
     length (filter (fun k => k = x) (keys ch1)) = 1 /\
     (ch !! x = None -> ch1 = <[x := Dir ∅]> ch)) /\
  (forall item, ch !! x = Some item ->
     _mkdir (x :: rest) self =
       (self, ("mkdir: " +:+ AlreadyExists_message x) +:+ nl, inr tt)).
Proof.
  intros Hcur. split.
  - rewrite (mkdir_run self ch Hcur).
    destruct (ch !! x) as [item|] eqn:Hx.
    + eexists _, _, ch. split; [done|]. split; [done|].
      rewrite (mkdir_run self ch Hcur), Hx. split; [done|]. split; [|done].
      apply count_NoDup; [apply NoDup_keys|]. apply elem_of_keys. by exists item.
    + pose proof (updated_current_node self ch Hcur (insert x (Dir ∅))) as Hcur1.
      eexists _, _, _. split; [done|]. split; [exact Hcur1|].
      rewrite (mkdir_run _ _ Hcur1), lookup_insert_eq. split; [done|]. split; [|done].
      apply count_NoDup; [apply NoDup_keys|]. apply elem_of_keys.
      rewrite lookup_insert_eq. by eexists.
  - intros item Hx. by rewrite (mkdir_run self ch Hcur), Hx.
Qed.

Lemma mkdir_twice_witness :
  _get_current_node (__init__ "user") = Some seed_home /\
  (exists self1 out1 ch1,
     _mkdir ("x" :: []) (__init__ "user") = (self1, out1, inr tt) /\
     _get_current_node self1 = Some ch1 /\
     _mkdir ("x" :: []) self1 =
       (self1, ("mkdir: " +:+ AlreadyExists_message "x") +:+ nl, inr tt) /\
     length (filter (fun k => k = "x") (keys ch1)) = 1 /\
     (seed_home !! "x" = None -> ch1 = <["x" := Dir ∅]> seed_home)) /\
  (forall item, seed_home !! "x" = Some item ->
     _mkdir ("x" :: []) (__init__ "user") =
       (__init__ "user", ("mkdir: " +:+ AlreadyExists_message "x") +:+ nl, inr tt)).
Proof.
  assert (H1 : _get_current_node (__init__ "user") = Some seed_home)
    by (vm_compute; reflexivity).
  split; [exact H1|].
  exact (mkdir_twice (__init__ "user") seed_home "x" [] [] H1).
Defined.

Example mkdir_x_twice :
  loop_body "" "mkdir x" (typed ["mkdir x"])
    = (typed ["mkdir x"], "mkdir: cannot create directory 'x': File exists" +:+ nl, inr tt) /\
  loop_body "" "mkdir welcome.txt" (__init__ "user")
    = (__init__ "user", "mkdir: cannot create directory 'welcome.txt': File exists" +:+ nl,
       inr tt) /\
  (loop_body "" "ls" (typed ["mkdir x"; "mkdir x"])).1.2 = "welcome.txt  x/  " +:+ nl.
Proof. repeat split; vm_compute; reflexivity. Qed.

(** ** cd *)

(** The claim C5 as the specification words it fails twice: [..] is not
    a child of the home directory, yet [cd ..] there changes the current
    path and prints nothing; and the line printed for a missing name
    starts with [cd: ]. *)
Lemma cd_failure_counterexample :
  (_get_current_node (__init__ "user") = Some seed_home /\
   seed_home !! ".." = None /\
   _cd [".."] (__init__ "user") = (set_current_path ["home"] (__init__ "user"), "", inr tt) /\
   current_path (set_current_path ["home"] (__init__ "user")) <> current_path (__init__ "user")) /\
  (seed_home !! "nonexistent" = None /\
   _cd ["nonexistent"] (__init__ "user")
     = (__init__ "user", "cd: no such directory: nonexistent" +:+ nl, inr tt) /\
   "cd: no such directory: nonexistent" +:+ nl <> "no such directory: nonexistent" +:+ nl).
Proof.
  split.
  - split; [vm_compute; reflexivity|]. split; [vm_compute; reflexivity|].
    split; [vm_compute; reflexivity|]. vm_compute. discriminate.
  - split; [vm_compute; reflexivity|]. split; [vm_compute; reflexivity|].
    vm_compute. discriminate.
Qed.

(** C5, amended. In a session whose current path resolves, for every
    argument other than [/] and [..] that is not a directory among the
    children of the current directory (missing, or a file), [cd] leaves the
    session unchanged and prints exactly [cd: no such directory: <arg>]. *)
Theorem cd_failure (self : PyOS) (ch : directory) (path : string) (rest : list string) :
  _get_current_node self = Some ch ->
  path <> "/" ->
  path <> ".." ->
  (forall children, ch !! path <> Some (Dir children)) ->
  _cd (path :: rest) self = (self, ("cd: no such directory: " +:+ path) +:+ nl, inr tt).
Proof.
  intros Hcur Hroot Hup Hdir. rewrite (cd_name_run self ch Hcur) by done.
  destruct (ch !! path) as [[children|content]|] eqn:Hpath; try done.
  by destruct (Hdir children).
Qed.

Lemma cd_failure_witness :
  _get_current_node (__init__ "user") = Some seed_home /\
  "welcome.txt" <> "/" /\
  "welcome.txt" <> ".." /\
  (forall children, seed_home !! "welcome.txt" <> Some (Dir children)) /\
  _cd ("welcome.txt" :: []) (__init__ "user")
    = (__init__ "user", ("cd: no such directory: " +:+ "welcome.txt") +:+ nl, inr tt).
Proof.
  assert (H1 : _get_current_node (__init__ "user") = Some seed_home)
    by (vm_compute; reflexivity).
  assert (H2 : "welcome.txt" <> "/") by discriminate.
  assert (H3 : "welcome.txt" <> "..") by discriminate.
  assert (H4 : forall children, seed_home !! "welcome.txt" <> Some (Dir children))
    by (intros children; vm_compute; discriminate).
  repeat (split; [assumption|]).
  exact (cd_failure (__init__ "user") seed_home "welcome.txt" [] H1 H2 H3 H4).
Defined.

(** C6. [cd ..] never raises and prints nothing; at the root it leaves
    the session as it is, and below the root it removes exactly the last
    segment of the current path. *)
Theorem cd_parent (self : PyOS) (rest : list string) :
  exists self1,
    _cd (".." :: rest) self = (self1, "", inr tt) /\
    user self1 = user self /\
    file_system self1 = file_system self /\
    (current_path self = [] -> self1 = self) /\
    (forall p seg, current_path self = p ++ [seg] -> current_path self1 = p) /\
    length (current_path self1) = length (current_path self) - 1.
Proof.
  unfold _cd. rewrite decide_False by discriminate. rewrite decide_True by done.
  unfold modify_self. eexists. split; [reflexivity|].
  destruct (current_path self) as [|seg0 p0] eqn:Hp.
  - repeat split; try done.
    + intros p seg Happ. by destruct p.
    + by rewrite Hp.
  - repeat split; try done.
    + intros p seg Happ. change (removelast (seg0 :: p0) = p).
      rewrite Happ. apply removelast_last.
    + change (length (removelast (seg0 :: p0)) = length (seg0 :: p0) - 1).
      destruct (exists_last (l := seg0 :: p0)) as (p & seg & Happ); [done|].
      rewrite Happ, removelast_last, length_app. simpl. lia.
Qed.

Example cd_parent_at_root :
  loop_body "" "cd .." (typed ["cd /"]) = (typed ["cd /"], "", inr tt) /\
  current_path (typed ["cd /"; "cd .."; "cd .."]) = [] /\
  current_path (typed ["cd .."]) = ["home"].
Proof. repeat split; vm_compute; reflexivity. Qed.

(** ** ls *)

(** What [ls] prints, with the order of [sorted] and the two shapes of
    an entry written out. *)
Lemma ls_listing (self : PyOS) (ch : directory) (args : list string) :
  _get_current_node self = Some ch ->
  exists names entries,
    (forall name, name ∈ names <-> is_Some (ch !! name)) /\
    NoDup names /\
    StronglySorted (fun a b => String.leb a b = true) names /\
    Forall2 (fun name entry =>
               (exists children, ch !! name = Some (Dir children) /\ entry = name +:+ "/") \/
               (exists content, ch !! name = Some (File content) /\ entry = name))
            names entries /\
    _ls args self = (self, ls_text entries, inr tt).
Proof.
  intros Hcur.
  destruct (ls_run self ch Hcur args) as (names & entries & Hin & Hnd & Hsort & Hall & Hrun).
  exists names, entries. split; [done|]. split; [done|]. split; [done|]. split; [|done].
  eapply Forall2_impl; [exact Hall|].
  intros name entry (item & Hitem & ->). destruct item as [children|content].
  - left. by exists children.
  - right. by exists content.
Qed.

(** C7. In a session whose current path resolves, [ls], whatever its
    arguments, returns without raising and leaves the session unchanged;
    what it prints is the line of the children of the current directory,
    each name once, ascending by name in the order of the character codes,
    a directory shown as its name followed by [/] and a file by its bare
    name. *)
Theorem ls_lists_sorted (self : PyOS) (ch : directory) (args : list string) :
  _get_current_node self = Some ch ->
  exists names entries,
    (forall name, name ∈ names <-> is_Some (ch !! name)) /\
    NoDup names /\
    StronglySorted (fun a b => String.leb a b = true) names /\
    Forall2 (fun name entry =>
               (exists children, ch !! name = Some (Dir children) /\ entry = name +:+ "/") \/
               (exists content, ch !! name = Some (File content) /\ entry = name))
            names entries /\
    _ls args self = (self, ls_text entries, inr tt).
Proof. apply ls_listing. Qed.

Lemma ls_lists_sorted_witness :
  _get_current_node (typed ["mkdir b"; "mkdir a"]) =
    Some (<["a" := Dir ∅]> (<["b" := Dir ∅]> seed_home)) /\
  exists names entries,
    (forall name, name ∈ names <->
       is_Some ((<["a" := Dir ∅]> (<["b" := Dir ∅]> seed_home)) !! name)) /\
    NoDup names /\
    StronglySorted (fun a b => String.leb a b = true) names /\
    Forall2 (fun name entry =>
               (exists children,
                  (<["a" := Dir ∅]> (<["b" := Dir ∅]> seed_home)) !! name = Some (Dir children)
                  /\ entry = name +:+ "/") \/
               (exists content,
                  (<["a" := Dir ∅]> (<["b" := Dir ∅]> seed_home)) !! name = Some (File content)
                  /\ entry = name))
            names entries /\
    _ls ["/etc"] (typed ["mkdir b"; "mkdir a"])
      = (typed ["mkdir b"; "mkdir a"], ls_text entries, inr tt).
Proof.
  assert (H1 : _get_current_node (typed ["mkdir b"; "mkdir a"]) =
               Some (<["a" := Dir ∅]> (<["b" := Dir ∅]> seed_home)))
    by (vm_compute; reflexivity).
  split; [exact H1|].
  exact (ls_lists_sorted (typed ["mkdir b"; "mkdir a"]) _ ["/etc"] H1).
Defined.

Example ls_sample :
  loop_body "" "ls /etc" (typed ["mkdir b"; "mkdir a"; "echo t > c"])
    = (typed ["mkdir b"; "mkdir a"; "echo t > c"], "a/  b/  c  welcome.txt  " +:+ nl, inr tt) /\
  loop_body "" "ls" (typed ["rm welcome.txt"]) = (typed ["rm welcome.txt"], "", inr tt).
Proof. split; vm_compute; reflexivity. Qed.

(** ** The prompt loop *)

Section Catchable.

Context {A B : Type}.

Lemma catchable_ret (a : A) : catchable (ret a).
Proof. intros self self1 out1 e. discriminate. Qed.

Lemma catchable_raise (e : exn) : is_Exception e = true -> catchable (@raise A e).
Proof. intros He self self1 out1 e' [= _ _ <-]. done. Qed.

Lemma catchable_bind (m : sh A) (k : A -> sh B) :
  catchable m -> (forall a, catchable (k a)) -> catchable (bind m k).
Proof.
  intros Hm Hk self self2 out e. unfold bind.
  destruct (m self) as [[self1 out1] [e1|a]] eqn:Hrun.
  - intros [= _ _ <-]. by eapply Hm.
  - destruct (k a self1) as [[self3 out3] r] eqn:Hrun'. intros [= _ _ ->].
    by eapply Hk.
Qed.

Lemma catchable_try_except (body : sh A) handles (handler : exn -> sh A) :
  catchable body -> (forall e, catchable (handler e)) ->
  catchable (try_except body handles handler).
Proof.
  intros Hb Hh self self2 out e. unfold try_except.
  destruct (body self) as [[self1 out1] [e1|a]] eqn:Hrun; [|discriminate].
  destruct (handles e1).
  - destruct (handler e1 self1) as [[self3 out3] r] eqn:Hrun'. intros [= _ _ ->].
    by eapply Hh.
  - intros [= _ _ <-]. by eapply Hb.
Qed.

End Catchable.

Lemma catchable_get_self : catchable get_self.
Proof. intros self self1 out1 e. discriminate. Qed.

Lemma catchable_modify_self f : catchable (modify_self f).
Proof. intros self self1 out1 e. discriminate. Qed.

Lemma catchable_setitem_current name item : catchable (setitem_current name item).
Proof. apply catchable_modify_self. Qed.

Lemma catchable_delitem_current name : catchable (delitem_current name).
Proof. apply catchable_modify_self. Qed.

Lemma catchable_print_end x e : catchable (print_end x e).
Proof. intros self self1 out1 e'. discriminate. Qed.

Lemma catchable_print x : catchable (print x).
Proof. apply catchable_print_end. Qed.

Lemma catchable_subscript_children node : catchable (subscript_children node).
Proof. destruct node; [apply catchable_ret|by apply catchable_raise]. Qed.

Lemma catchable_getitem d k : catchable (getitem d k).
Proof. unfold getitem. destruct (d !! k); [apply catchable_ret|by apply catchable_raise]. Qed.

Lemma catchable_index l x : catchable (index l x).
Proof.
  unfold index. destruct (index_from l x 0); [apply catchable_ret|by apply catchable_raise].
Qed.

Lemma catchable_getitem_list l i : catchable (getitem_list l i).
Proof.
  unfold getitem_list. destruct (l !! i); [apply catchable_ret|by apply catchable_raise].
Qed.

Lemma catchable_for_each {A} (l : list A) body :
  (forall x, catchable (body x)) -> catchable (for_each l body).
Proof.
  intros Hbody. induction l as [|x l IH]; simpl; [apply catchable_ret|].
  apply catchable_bind; auto.
Qed.

Create HintDb catchable.

#[local] Hint Resolve catchable_ret catchable_get_self catchable_modify_self
  catchable_print_end catchable_print catchable_subscript_children
  catchable_getitem catchable_index catchable_getitem_list
  catchable_setitem_current catchable_delitem_current : catchable.

#[local] Hint Extern 2 (catchable (bind _ _)) =>
  apply catchable_bind; [|intros ?] : catchable.
#[local] Hint Extern 2 (catchable (for_each _ _)) =>
  apply catchable_for_each; intros ? : catchable.
#[local] Hint Extern 2 (catchable (try_except _ _ _)) =>
  apply catchable_try_except; [|intros ?] : catchable.
#[local] Hint Extern 5 (catchable (match ?x with _ => _ end)) =>
  destruct x : catchable.
#[local] Hint Extern 5 (catchable (if ?x then _ else _)) =>
  destruct x : catchable.

Ltac catchable_handler h := intros args; unfold h; auto 20 with catchable.

Lemma catchable_help args : catchable (_help args).
Proof. revert args. catchable_handler _help. Qed.

Lemma catchable_ls args : catchable (_ls args).
Proof. revert args. catchable_handler _ls. Qed.

Lemma catchable_cd args : catchable (_cd args).
Proof. revert args. catchable_handler _cd. Qed.

Lemma catchable_mkdir args : catchable (_mkdir args).
Proof. revert args. catchable_handler _mkdir. Qed.

Lemma catchable_cat args : catchable (_cat args).
Proof. revert args. catchable_handler _cat. Qed.

Lemma catchable_echo args : catchable (_echo args).
Proof. revert args. catchable_handler _echo. Qed.

Lemma catchable_rm args : catchable (_rm args).
Proof. revert args. catchable_handler _rm. Qed.

Lemma catchable_pwd args : catchable (_pwd args).
Proof. revert args. catchable_handler _pwd. Qed.

Lemma catchable_date now args : catchable (_date now args).
Proof. apply catchable_print. Qed.

(** A line is blank for [strip] exactly when [split] finds no word in it,
    so that [parts[0]] exists whenever the loop reaches it. *)
Lemma lstrip_from_idemp (skip : nat) (s : string) :
  lstrip (lstrip_from skip s) = lstrip_from skip s.
Proof.
  unfold lstrip. revert skip. induction s as [|c s IH]; intros skip; [done|].
  destruct skip as [|k]; cbn [lstrip_from]; [|by apply IH].
  destruct (space_width (String c s)) as [|k] eqn:Hwidth; [|by apply IH].
  cbn [lstrip_from]. by rewrite Hwidth.
Qed.

Lemma rstrip_empty_iff (s : string) : rstrip s = "" <-> lstrip s = "".
Proof.
  destruct s as [|c s]; [done|]. cbn [rstrip].
  by destruct (lstrip (String c s)).
Qed.

Lemma split_from_nil (skip : nat) (word s : string) :
  split_from skip word s = [] <-> word = "" /\ lstrip_from skip s = "".
Proof.
  revert skip word. induction s as [|c s IH]; intros skip word.
  - cbn [split_from lstrip_from]. destruct word; [done|].
    split; [discriminate|by intros [? _]].
  - destruct skip as [|k]; cbn [split_from lstrip_from]; [|by apply IH].
    destruct (space_width (String c s)) as [|k] eqn:Hwidth.
    + rewrite IH. split; [|by intros [_ ?]].
      intros [Hword _]. by destruct word.
    + destruct word; [by apply IH|].
      split; [discriminate|by intros [? _]].
Qed.

Lemma strip_empty_iff (s : string) : strip s = "" <-> split s = [].
Proof.
  unfold strip, split. rewrite rstrip_empty_iff.
  change (lstrip s) with (lstrip_from 0 s).
  rewrite lstrip_from_idemp, split_from_nil.
  split; [done|by intros [_ ?]].
Qed.

Lemma commands_lookup (now command : string) (handler : list string -> sh unit) :
  _get_commands now !! command = Some handler ->
  command = "exit" \/ forall args, catchable (handler args).
Proof.
  unfold _get_commands. rewrite !list_to_map_cons, list_to_map_nil.
  intros Hlook.
  repeat (apply lookup_insert_Some in Hlook as [[<- <-]|[_ Hlook]];
          [auto using catchable_help, catchable_ls, catchable_cd, catchable_mkdir,
             catchable_cat, catchable_echo, catchable_rm, catchable_pwd,
             catchable_date|]).
  by rewrite lookup_empty in Hlook.
Qed.

Lemma loop_body_dispatch (now user_input command : string) (args : list string)
    (self : PyOS) :
  split user_input = command :: args ->
  loop_body now user_input self =
    match _get_commands now !! command with
    | Some handler =>
        try_except (handler args) is_Exception
          (fun e => print ("An error occurred executing '" +:+ command +:+ "': "
                           +:+ str_exn e)) self
    | None => print (command +:+ ": command not found") self
    end.
Proof.
  intros Hsplit. unfold loop_body.
  destruct (strip user_input) eqn:Hstrip.
  { apply strip_empty_iff in Hstrip. by rewrite Hstrip in Hsplit. }
  rewrite Hsplit.
  change (getitem_list (command :: args) 0) with (ret command). rewrite bind_ret.
  by destruct (_get_commands now !! command).
Qed.

(** Every line is either skipped as blank or has a verb to dispatch. *)
Lemma loop_body_blank_or_verb (now user_input : string) (self : PyOS) :
  (split user_input = [] /\ loop_body now user_input self = (self, "", inr tt)) \/
  (exists command args, split user_input = command :: args).
Proof.
  destruct (split user_input) as [|command args] eqn:Hsplit; [left|right; eauto].
  split; [done|]. apply strip_empty_iff in Hsplit. unfold loop_body. by rewrite Hsplit.
Qed.

(** C8. A line whose verb is not [exit] never ends the session: its
    body returns, and the loop goes on with the next event.  An unknown
    verb prints [<verb>: command not found]; an exception raised by the
    handler is reported as [An error occurred executing '<verb>': <message>]
    after whatever the handler printed. *)
Theorem dispatch_keeps_running (now user_input command : string)
    (args : list string) (self : PyOS) :
  split user_input = command :: args ->
  command <> "exit" ->
  (exists self1 out1,
     loop_body now user_input self = (self1, out1, inr tt) /\
     forall events,
       loop (Line now user_input :: events) self =
         (let '(self2, out2, st) := loop events self1 in
          (self2, _get_prompt self +:+ out1 +:+ out2, st))) /\
  (_get_commands now !! command = None ->
     loop_body now user_input self =
       (self, (command +:+ ": command not found") +:+ nl, inr tt)) /\
  (forall (handler : list string -> sh unit) self1 out1 e,
     _get_commands now !! command = Some handler ->
     handler args self = (self1, out1, inl e) ->
     loop_body now user_input self =
       (self1,
        out1 +:+ ("An error occurred executing '" +:+ command +:+ "': " +:+ str_exn e)
             +:+ nl,
        inr tt)).
Proof.
  intros Hsplit Hexit.
  assert (Hcaught : forall (handler : list string -> sh unit) self1 out1 e,
     _get_commands now !! command = Some handler ->
     handler args self = (self1, out1, inl e) ->
     loop_body now user_input self =
       (self1,
        out1 +:+ ("An error occurred executing '" +:+ command +:+ "': " +:+ str_exn e)
             +:+ nl,
        inr tt)).
  { intros handler self1 out1 e Hlook Hrun.
    rewrite (loop_body_dispatch _ _ _ _ _ Hsplit), Hlook.
    rewrite (try_except_raises _ _ _ _ _ _ _ Hrun).
    destruct (commands_lookup _ _ _ Hlook) as [?|Hcatch]; [done|].
    by rewrite (Hcatch _ _ _ _ _ Hrun). }
  assert (Hunknown : _get_commands now !! command = None ->
     loop_body now user_input self =
       (self, (command +:+ ": command not found") +:+ nl, inr tt)).
  { intros Hlook. by rewrite (loop_body_dispatch _ _ _ _ _ Hsplit), Hlook. }
  split; [|by split].
  assert (exists self1 out1, loop_body now user_input self = (self1, out1, inr tt))
    as (self1 & out1 & Hbody).
  { destruct (_get_commands now !! command) as [handler|] eqn:Hlook; [|by eauto].
    destruct (handler args self) as [[self1 out1] [e|[]]] eqn:Hrun; [by eauto|].
    exists self1, out1.
    rewrite (loop_body_dispatch _ _ _ _ _ Hsplit), Hlook.
    by apply try_except_returns. }
  exists self1, out1. split; [done|].
  intros events. simpl loop. rewrite Hbody.
  by destruct (loop events self1) as [[self2 out2] st].
Qed.

Lemma dispatch_keeps_running_witness :
  split "ls -l" = "ls" :: ["-l"] /\
  "ls" <> "exit" /\
  (exists self1 out1,
     loop_body "" "ls -l" dangling = (self1, out1, inr tt) /\
     forall events,
       loop (Line "" "ls -l" :: events) dangling =
         (let '(self2, out2, st) := loop events self1 in
          (self2, _get_prompt dangling +:+ out1 +:+ out2, st))) /\
  (_get_commands "" !! "ls" = None ->
     loop_body "" "ls -l" dangling =
       (dangling, ("ls" +:+ ": command not found") +:+ nl, inr tt)) /\
  (forall (handler : list string -> sh unit) self1 out1 e,
     _get_commands "" !! "ls" = Some handler ->
     handler ["-l"] dangling = (self1, out1, inl e) ->
     loop_body "" "ls -l" dangling =
       (self1,
        out1 +:+ ("An error occurred executing '" +:+ "ls" +:+ "': " +:+ str_exn e)
             +:+ nl,
        inr tt)).
Proof.
  assert (H1 : split "ls -l" = "ls" :: ["-l"]) by reflexivity.
  assert (H2 : "ls" <> "exit") by discriminate.
  split; [exact H1|]. split; [exact H2|].
  exact (dispatch_keeps_running "" "ls -l" "ls" ["-l"] dangling H1 H2).
Defined.

(** An unknown verb, a handler that raises, and [exit]. *)
Example unknown_verb :
  loop_body "" "foo" (__init__ "user") = (__init__ "user", "foo: command not found" +:+ nl, inr tt) /\
  session_after "" ["foo"; "bar baz"] (__init__ "user") = (__init__ "user", Running).
Proof. split; vm_compute; reflexivity. Qed.

Example handler_fault :
  _ls ["-l"] dangling
    = (dangling, "", inl (TypeError "'NoneType' object is not subscriptable")) /\
  loop_body "" "ls -l" dangling
    = (dangling,
       "An error occurred executing 'ls': 'NoneType' object is not subscriptable" +:+ nl,
       inr tt) /\
  session_after "" ["ls -l"; "mkdir x"; "cat y"] dangling = (dangling, Running).
Proof. repeat split; vm_compute; reflexivity. Qed.

Example exit_terminates :
  loop_body "" "exit" (__init__ "user")
    = (__init__ "user", "Shutting down PyOS..." +:+ nl, inl (SystemExit 0)) /\
  session_after "" ["exit"; "mkdir x"] (__init__ "user") = (__init__ "user", Terminated) /\
  (loop [Interrupt; Line "" "mkdir x"] (__init__ "user")).2 = Terminated.
Proof. repeat split; vm_compute; reflexivity. Qed.

(** White space beyond ASCII is white space to the loop as well: a no-break
    space ends the verb, a line of such characters only is skipped, and a
    verb followed by nothing else has no operand. *)
Example unicode_space_lines :
  session_after "" ["exit" +:+ nbsp +:+ "now"; "mkdir x"] (__init__ "user")
    = (__init__ "user", Terminated) /\
  loop_body "" (ideographic_space +:+ nel) (__init__ "user") = (__init__ "user", "", inr tt) /\
  loop_body "" ("mkdir " +:+ nbsp) dangling
    = (dangling, "mkdir: missing operand" +:+ nl, inr tt) /\
  loop_body "" ("cd " +:+ nbsp) (typed ["cd /"])
    = (__init__ "user", "", inr tt) /\
  _get_current_node (typed ["rm welcome.txt"; "cd .."; "rm user"; "cd" +:+ nbsp]) = None.
Proof. repeat split; vm_compute; reflexivity. Qed.

(** ** The session invariant *)

(** C9. The invariant does not hold of the code: once the home directory
    has been emptied and removed, [cd] without an argument sets the current
    path to [home/<user>] without looking it up, the session goes on, and
    the current path resolves to nothing; the next handler that reads the
    current directory raises. *)
Theorem current_path_dangles :
  session_after "" ["rm welcome.txt"; "cd .."; "rm user"] (__init__ "user")
    = (updated (delete "user") (set_current_path ["home"] (updated (delete "welcome.txt") (__init__ "user"))),
       Running) /\
  session_after "" ["rm welcome.txt"; "cd .."; "rm user"; "cd"] (__init__ "user")
    = (dangling, Running) /\
  current_path dangling = ["home"; "user"] /\
  _get_node_from_path dangling ["home"] = Some ∅ /\
  _get_current_node dangling = None /\
  loop_body "" "ls" dangling
    = (dangling,
       "An error occurred executing 'ls': 'NoneType' object is not subscriptable" +:+ nl,
       inr tt).
Proof. repeat split; vm_compute; reflexivity. Qed.

(** What the invariant does survive: every line except [cd] without an
    argument keeps the current path resolving. *)

Lemma walk_removelast (root : directory) (path : list string) :
  is_Some (walk root path) -> is_Some (walk root (removelast path)).
Proof.
  destruct path as [|seg path] using rev_ind; [done|].
  rewrite removelast_last, walk_app.
  destruct (walk root path); [by eauto|]. by intros [? ?].
Qed.

Lemma echo_cases (self : PyOS) (ch : directory) (args : list string) :
  _get_current_node self = Some ch ->
  _echo args self = (self, "Usage: echo <text> > <filename>" +:+ nl, inr tt) \/
  exists file_name content,
    _echo args self = (updated (insert file_name (File content)) self, "", inr tt).
Proof.
  intros Hcur. unfold _echo, index.
  destruct (index_from args ">" 0) as [redirect_index|].
  - unfold getitem_list.
    destruct (args !! (redirect_index + 1)) as [file_name|] eqn:Hname.
    + right. eexists _, _. apply try_except_returns.
      rewrite bind_ret, Hname, bind_ret, bind_get_self, Hcur.
      unfold subscript_children. by rewrite bind_ret.
    + left. erewrite try_except_raises by (rewrite bind_ret, Hname; reflexivity).
      reflexivity.
  - left. erewrite try_except_raises by reflexivity. reflexivity.
Qed.

Section Invariant.

Implicit Types (self : PyOS) (args : list string).

Lemma updated_resolves f self :
  current_path_resolves self -> current_path_resolves (updated f self).
Proof.
  intros [ch Hcur]. unfold current_path_resolves.
  rewrite (updated_current_node _ _ Hcur). by eexists.
Qed.

Lemma keeps_help args : keeps_current_path (_help args).
Proof. by intros self. Qed.

Lemma keeps_pwd args : keeps_current_path (_pwd args).
Proof. by intros self. Qed.

Lemma keeps_date now args : keeps_current_path (_date now args).
Proof. by intros self. Qed.

Lemma keeps_exit args : keeps_current_path (_exit args).
Proof. by intros self. Qed.

Lemma keeps_ls args : keeps_current_path (_ls args).
Proof.
  intros self [ch Hcur].
  destruct (ls_run self ch Hcur args) as (names & entries & _ & _ & _ & _ & ->).
  by exists ch.
Qed.

Lemma keeps_cat args : keeps_current_path (_cat args).
Proof.
  intros self [ch Hcur]. destruct args as [|file_name rest]; [by exists ch|].
  rewrite (cat_run self ch Hcur). by exists ch.
Qed.

Lemma keeps_mkdir args : keeps_current_path (_mkdir args).
Proof.
  intros self [ch Hcur]. destruct args as [|dir_name rest]; [by exists ch|].
  rewrite (mkdir_run self ch Hcur).
  destruct (ch !! dir_name); [by exists ch|]. apply updated_resolves. by exists ch.
Qed.

Lemma keeps_rm args : keeps_current_path (_rm args).
Proof.
  intros self [ch Hcur]. destruct args as [|name rest]; [by exists ch|].
  rewrite (rm_run self ch Hcur).
  destruct (ch !! name) as [[grandchildren|content]|]; [|..|by exists ch].
  - destruct (decide (grandchildren = ∅)); [|by exists ch].
    apply updated_resolves. by exists ch.
  - apply updated_resolves. by exists ch.
Qed.

Lemma keeps_echo args : keeps_current_path (_echo args).
Proof.
  intros self [ch Hcur].
  destruct (echo_cases self ch args Hcur) as [->|(file_name & content & ->)].
  - by exists ch.
  - apply updated_resolves. by exists ch.
Qed.

Lemma cd_parent_run self rest :
  _cd (".." :: rest) self =
    (set_current_path (removelast (current_path self)) self, "", inr tt).
Proof.
  unfold _cd. rewrite decide_False by done. rewrite decide_True by done.
  unfold modify_self. do 2 f_equal.
  destruct self as [u fs p]. by destruct p.
Qed.

(** [cd] with an argument: [/] resolves to the root, [..] to a prefix of
    a path that resolves, and a name is appended only when it is a
    directory of the current node. *)
Lemma keeps_cd args : args <> [] -> keeps_current_path (_cd args).
Proof.
  intros Hargs self [ch Hcur]. destruct args as [|path rest]; [done|].
  destruct (decide (path = "/")) as [->|Hroot]; [by eexists|].
  destruct (decide (path = "..")) as [->|Hup].
  - rewrite cd_parent_run.
    apply (walk_removelast (file_system self) (current_path self)). by exists ch.
  - rewrite (cd_name_run self ch Hcur) by done.
    destruct (ch !! path) as [[children|content]|] eqn:Hpath; try by exists ch.
    exists children.
    unfold _get_current_node, _get_node_from_path in *. simpl.
    rewrite walk_app, Hcur. simpl. by rewrite Hpath.
Qed.

Lemma commands_keep (now command : string) (handler : list string -> sh unit) args :
  _get_commands now !! command = Some handler ->
  (command = "cd" -> args <> []) ->
  keeps_current_path (handler args).
Proof.
  unfold _get_commands. rewrite !list_to_map_cons, list_to_map_nil.
  intros Hlook Hcd.
  repeat (apply lookup_insert_Some in Hlook as [[<- <-]|[_ Hlook]];
          [first [ apply keeps_help | apply keeps_ls | apply keeps_cd; by auto
                 | apply keeps_mkdir | apply keeps_cat | apply keeps_echo
                 | apply keeps_rm | apply keeps_pwd | apply keeps_date
                 | apply keeps_exit ]|]).
  by rewrite lookup_empty in Hlook.
Qed.

Lemma try_except_print_state (body : sh unit) handles (msg : exn -> string) self :
  (try_except body handles (fun e => print (msg e)) self).1.1 = (body self).1.1.
Proof.
  unfold try_except. destruct (body self) as [[self1 out1] [e|a]]; [|done].
  by destruct (handles e).
Qed.

Lemma loop_body_keeps_current_path (now user_input : string) :
  split user_input <> ["cd"] -> keeps_current_path (loop_body now user_input).
Proof.
  intros Hcd self Hres.
  destruct (loop_body_blank_or_verb now user_input self)
    as [[_ ->]|(command & args & Hsplit)]; [done|].
  rewrite (loop_body_dispatch _ _ _ _ _ Hsplit).
  destruct (_get_commands now !! command) as [handler|] eqn:Hlook; [|done].
  rewrite try_except_print_state.
  apply (commands_keep now command handler args); [done| |done].
  intros -> ->. by rewrite Hsplit in Hcd.
Qed.

Lemma session_keeps_current_path (now : string) (lines : list string) self :
  Forall (fun user_input => split user_input <> ["cd"]) lines ->
  current_path_resolves self ->
  current_path_resolves (session_after now lines self).1.
Proof.
  unfold session_after. intros Hlines. revert self.
  induction Hlines as [|user_input lines Hcd _ IH]; intros self Hres; [done|].
  simpl. pose proof (loop_body_keeps_current_path now user_input Hcd self Hres) as Hres1.
  destruct (loop_body now user_input self) as [[self1 out1] [e|[]]]; [done|].
  specialize (IH self1 Hres1).
  by destruct (loop (map (Line now) lines) self1) as [[self2 out2] st].
Qed.

End Invariant.

(** * Further properties of the shell *)

(** ** The seed layout *)

(** X1. Whatever the user name, a new session has the two directories
    [home] and [etc] at its root and nothing else, [os-release] in [etc],
    the user's directory alone in [home], and starts in that directory,
    which holds [welcome.txt] alone. *)
Theorem init_layout (user : string) :
  current_path (__init__ user) = ["home"; user] /\
  _get_current_node (__init__ user) = Some seed_home /\
  _get_node_from_path (__init__ user) ["home"] = Some (<[user := Dir seed_home]> ∅) /\
  _get_node_from_path (__init__ user) ["etc"]
    = Some (<["os-release" := File "PyOS Version 1.0 (Simulated)"]> ∅) /\
  (forall name, is_Some (file_system (__init__ user) !! name) <->
                name = "home" \/ name = "etc").
Proof.
  unfold _get_current_node, _get_node_from_path, __init__, seed_home.
  cbn [current_path file_system walk].
  split; [done|]. split; [by rewrite !lookup_insert_eq|].
  split; [by rewrite lookup_insert_eq|].
  split; [by rewrite lookup_insert_ne, lookup_insert_eq|].
  intros name. split.
  - intros [item Hitem].
    apply lookup_insert_Some in Hitem as [[<- _]|[_ Hitem]]; [by left|].
    apply lookup_insert_Some in Hitem as [[<- _]|[_ Hitem]]; [by right|].
    by rewrite lookup_empty in Hitem.
  - intros [->| ->].
    + rewrite lookup_insert_eq. by eexists.
    + rewrite lookup_insert_ne by done. rewrite lookup_insert_eq. by eexists.
Qed.

(** ** The table of commands *)

Lemma commands_known (now : string) :
  _get_commands now !! "help" = Some _help /\
  _get_commands now !! "ls" = Some _ls /\
  _get_commands now !! "cd" = Some _cd /\
  _get_commands now !! "mkdir" = Some _mkdir /\
  _get_commands now !! "cat" = Some _cat /\
  _get_commands now !! "echo" = Some _echo /\
  _get_commands now !! "rm" = Some _rm /\
  _get_commands now !! "pwd" = Some _pwd /\
  _get_commands now !! "date" = Some (_date now) /\
  _get_commands now !! "exit" = Some _exit.
Proof. repeat split; vm_compute; reflexivity. Qed.

(** X2. The first word of a line selects the handler: it is looked up,
    as spelled, in a table of exactly ten verbs, and the handler bound to
    it there runs with the remaining words as its arguments.  When the
    handler returns, its session and its output are those of the line; when
    it raises an [Exception], the line reports the fault after the
    handler's output and returns; any other exception leaves the line.  On
    a first word outside the table the loop prints
    [<word>: command not found] and leaves the session as it is. *)
Theorem known_verbs (now command : string) :
  (is_Some (_get_commands now !! command) <-> command ∈ verbs) /\
  (forall (handler : list string -> sh unit) user_input args self,
     (command, handler) ∈
       [("help", _help); ("ls", _ls); ("cd", _cd); ("mkdir", _mkdir);
        ("cat", _cat); ("echo", _echo); ("rm", _rm); ("pwd", _pwd);
        ("date", _date now); ("exit", _exit)] ->
     split user_input = command :: args ->
     loop_body now user_input self =
       match handler args self with
       | (self1, out1, inr tt) => (self1, out1, inr tt)
       | (self1, out1, inl e) =>
           if is_Exception e then
             (self1,
              out1 +:+ ("An error occurred executing '" +:+ command +:+ "': "
                        +:+ str_exn e) +:+ nl,
              inr tt)
           else (self1, out1, inl e)
       end) /\
  (forall user_input args self,
     split user_input = command :: args ->
     command ∉ verbs ->
     loop_body now user_input self =
       (self, (command +:+ ": command not found") +:+ nl, inr tt)).
Proof.
  assert (Hiff : is_Some (_get_commands now !! command) <-> command ∈ verbs).
  { split.
    - intros [handler Hlook]. revert Hlook.
      unfold _get_commands. rewrite !list_to_map_cons, list_to_map_nil.
      intros Hlook. unfold verbs.
      repeat (apply lookup_insert_Some in Hlook as [[<- _]|[_ Hlook]];
              [set_solver|]).
      by rewrite lookup_empty in Hlook.
    - destruct (commands_known now)
        as (H1 & H2 & H3 & H4 & H5 & H6 & H7 & H8 & H9 & H10).
      unfold verbs. rewrite !elem_of_cons, elem_of_nil.
      intros [->|[->|[->|[->|[->|[->|[->|[->|[->|[->|[]]]]]]]]]]]; by eexists. }
  split; [done|]. split.
  - intros handler user_input args self Hin Hsplit.
    assert (_get_commands now !! command = Some handler) as Hlook.
    { destruct (commands_known now)
        as (H1 & H2 & H3 & H4 & H5 & H6 & H7 & H8 & H9 & H10).
      rewrite !elem_of_cons, elem_of_nil in Hin.
      destruct Hin as [Hin|[Hin|[Hin|[Hin|[Hin|[Hin|[Hin|[Hin|[Hin|[Hin|[]]]]]]]]]]];
        injection Hin as -> ->; assumption. }
    rewrite (loop_body_dispatch _ _ _ _ _ Hsplit), Hlook.
    destruct (handler args self) as [[self1 out1] [e|[]]] eqn:Hrun.
    + rewrite (try_except_raises _ _ _ _ _ _ _ Hrun).
      by destruct (is_Exception e).
    + by apply try_except_returns.
  - intros user_input args self Hsplit Hverb.
    rewrite (loop_body_dispatch _ _ _ _ _ Hsplit).
    destruct (_get_commands now !! command) as [handler|] eqn:Hlook; [|done].
    destruct Hverb. apply Hiff. by eexists.
Qed.

(** A known verb after white space beyond ASCII: the line is dispatched,
    not taken for one unknown word. *)
Example mkdir_after_no_break_space :
  loop_body "" ("mkdir" +:+ nbsp +:+ "a" +:+ em_space +:+ "b") (__init__ "user")
    = loop_body "" "mkdir a b" (__init__ "user") /\
  _get_current_node
    (loop_body "" ("mkdir" +:+ nbsp +:+ "a" +:+ em_space +:+ "b") (__init__ "user")).1.1
    = Some (<["a" := Dir ∅]> seed_home).
Proof. split; vm_compute; reflexivity. Qed.

Example verbs_are_case_sensitive :
  loop_body "" "LS" (__init__ "user") = (__init__ "user", "LS: command not found" +:+ nl, inr tt).
Proof. vm_compute. reflexivity. Qed.

(** ** Malformed arguments *)

(** X3. [mkdir], [cat] and [rm] typed without an operand print
    [<verb>: missing operand] and change nothing, in every session: the
    operand is checked before the current directory is read. *)
Theorem missing_operand (now user_input verb : string) (self : PyOS) :
  verb ∈ ["mkdir"; "cat"; "rm"] ->
  split user_input = [verb] ->
  loop_body now user_input self = (self, (verb +:+ ": missing operand") +:+ nl, inr tt).
Proof.
  intros Hverb Hsplit. rewrite (loop_body_dispatch _ _ _ _ _ Hsplit).
  destruct (commands_known now) as (_ & _ & _ & Hmkdir & Hcat & _ & Hrm & _).
  rewrite !elem_of_cons, elem_of_nil in Hverb.
  destruct Hverb as [->|[->|[->|[]]]].
  - by rewrite Hmkdir.
  - by rewrite Hcat.
  - by rewrite Hrm.
Qed.

Lemma missing_operand_witness :
  "rm" ∈ ["mkdir"; "cat"; "rm"] /\
  split "  rm  " = ["rm"] /\
  loop_body "" "  rm  " dangling = (dangling, ("rm" +:+ ": missing operand") +:+ nl, inr tt).
Proof.
  assert (H1 : "rm" ∈ ["mkdir"; "cat"; "rm"]) by compute_done.
  assert (H2 : split "  rm  " = ["rm"]) by reflexivity.
  split; [exact H1|]. split; [exact H2|].
  exact (missing_operand "" "  rm  " "rm" dangling H1 H2).
Defined.

Lemma index_from_absent (l : list string) (x : string) (i : nat) :
  x ∉ l -> index_from l x i = None.
Proof.
  revert i. induction l as [|y l IH]; intros i Hx; [done|].
  apply not_elem_of_cons in Hx as [Hne Hx]. simpl.
  rewrite decide_False by done. by apply IH.
Qed.

(** The arguments up to the first [>], if there is one. *)
Lemma first_redirect (args : list string) :
  ">" ∉ args \/ exists tokens rest, (">" ∉ tokens) /\ args = tokens ++ ">" :: rest.
Proof.
  induction args as [|a args IH]; [left; apply not_elem_of_nil|].
  destruct (decide (a = ">")) as [->|Hne].
  - right. exists [], args. split; [apply not_elem_of_nil|done].
  - destruct IH as [Hno|(tokens & rest & Hno & ->)].
    + left. by apply not_elem_of_cons.
    + right. exists (a :: tokens), rest. split; [by apply not_elem_of_cons|done].
Qed.

(** X4. [echo] prints its usage line, and changes nothing, exactly when
    its arguments hold no [>] or the first [>] is the last argument; this
    holds in every session, since the arguments are taken apart before the
    current directory is read. *)
Theorem echo_usage (self : PyOS) (args : list string) :
  _echo args self = (self, usage_line, inr tt) <->
  (">" ∉ args \/ exists tokens, (">" ∉ tokens) /\ args = tokens ++ [">"]).
Proof.
  split.
  - intros Hrun.
    destruct (first_redirect args) as [Hno|(tokens & rest & Hno & ->)]; [by left|].
    destruct rest as [|file_name rest]; [right; by exists tokens|].
    destruct (_get_current_node self) as [ch|] eqn:Hcur.
    + rewrite (echo_run self ch Hcur tokens file_name rest Hno) in Hrun.
      injection Hrun as _ Hout. discriminate.
    + destruct (handlers_raise self Hcur file_name rest tokens)
        as (_ & _ & _ & _ & _ & Hecho).
      rewrite (Hecho Hno) in Hrun. discriminate.
  - intros [Hno|(tokens & Hno & ->)]; unfold _echo, index.
    + rewrite (index_from_absent _ _ _ Hno).
      erewrite try_except_raises by reflexivity. reflexivity.
    + rewrite (index_from_app tokens ">" [] 0 Hno).
      erewrite try_except_raises; last first.
      { rewrite bind_ret. unfold getitem_list.
        rewrite lookup_ge_None_2; [reflexivity|]. rewrite length_app. simpl. lia. }
      reflexivity.
Qed.

Example echo_usage_lines :
  loop_body "" "echo hello" dangling = (dangling, usage_line, inr tt) /\
  loop_body "" "echo hello >" (__init__ "user") = (__init__ "user", usage_line, inr tt) /\
  loop_body "" "echo" (__init__ "user") = (__init__ "user", usage_line, inr tt).
Proof. repeat split; vm_compute; reflexivity. Qed.

(** ** rm and cat *)

(** X5. After [rm x], whatever its outcome, [cat x] prints the line
    [cat: x: No such file or it is a directory]: [rm] never leaves a file
    under the name it was given. *)
Theorem rm_then_cat (self : PyOS) (ch : directory) (name : string)
    (rest rest' : list string) :
  _get_current_node self = Some ch ->
  _cat (name :: rest') (_rm (name :: rest) self).1.1 =
    ((_rm (name :: rest) self).1.1,
     ("cat: " +:+ name +:+ ": No such file or it is a directory") +:+ nl,
     inr tt).
Proof.
  intros Hcur. rewrite (rm_run self ch Hcur).
  pose proof (updated_current_node self ch Hcur (delete name)) as Hcur1.
  destruct (ch !! name) as [[grandchildren|content]|] eqn:Hname.
  - destruct (decide (grandchildren = ∅)).
    + simpl fst. rewrite (cat_run _ _ Hcur1). by rewrite lookup_delete_eq.
    + simpl fst. rewrite (cat_run _ _ Hcur). by rewrite Hname.
  - simpl fst. rewrite (cat_run _ _ Hcur1). by rewrite lookup_delete_eq.
  - simpl fst. rewrite (cat_run _ _ Hcur). by rewrite Hname.
Qed.

Lemma rm_then_cat_witness :
  _get_current_node (__init__ "user") = Some seed_home /\
  _cat ("welcome.txt" :: []) (_rm ("welcome.txt" :: []) (__init__ "user")).1.1 =
    ((_rm ("welcome.txt" :: []) (__init__ "user")).1.1,
     ("cat: " +:+ "welcome.txt" +:+ ": No such file or it is a directory") +:+ nl,
     inr tt).
Proof.
  assert (H1 : _get_current_node (__init__ "user") = Some seed_home)
    by (vm_compute; reflexivity).
  split; [exact H1|].
  exact (rm_then_cat (__init__ "user") seed_home "welcome.txt" [] [] H1).
Defined.

(** ** In-place updates of the tree *)

Section Updates.

Implicit Types (root d : directory) (path : list string) (f g : directory -> directory).

(** Two updates of the same directory amount to one. *)
Lemma update_dir_compose path f g root d :
  walk root path = Some d ->
  update_dir path g (update_dir path f root) = update_dir path (g ∘ f) root.
Proof.
  revert root. induction path as [|seg path IH]; intros root Hw; simpl in *; [done|].
  destruct (root !! seg) as [[children|content]|] eqn:Hseg; try discriminate.
  rewrite lookup_insert_eq, insert_insert_eq. by rewrite IH.
Qed.

(** An update that leaves the directory as it is leaves the tree as it is. *)
Lemma update_dir_same path f root d :
  walk root path = Some d -> f d = d -> update_dir path f root = root.
Proof.
  revert root. induction path as [|seg path IH]; intros root Hw Hf; simpl in *.
  - injection Hw as ->. done.
  - destruct (root !! seg) as [[children|content]|] eqn:Hseg; try discriminate.
    rewrite IH by done. by apply insert_id.
Qed.

(** An update is not seen along a path that has parted ways with the
    path of the update. *)
Lemma update_dir_frame p q f root :
  diverge p q -> walk (update_dir p f root) q = walk root q.
Proof.
  intros (r & a & b & p' & q' & -> & -> & Hab). revert root.
  induction r as [|seg r IH]; intros root; simpl.
  - destruct (root !! a) as [[children|content]|]; try done.
    by rewrite lookup_insert_ne.
  - destruct (root !! seg) as [[children|content]|] eqn:Hseg;
      rewrite ?Hseg; try done.
    by rewrite lookup_insert_eq, IH.
Qed.

Lemma updated_undone self d f g :
  _get_current_node self = Some d -> g (f d) = d ->
  updated g (updated f self) = self.
Proof.
  intros Hcur Hgf. unfold updated, set_file_system. simpl.
  rewrite (update_dir_compose _ _ _ _ d Hcur).
  rewrite (update_dir_same _ _ _ d Hcur Hgf). by destruct self.
Qed.

End Updates.

(** X6. In the current directory, removing a name right after it has been
    created restores the session exactly: [mkdir x] then [rm x], and
    [echo .. > x] then [rm x], for a name [x] that was free. *)
Theorem create_then_rm (self : PyOS) (ch : directory) (x : string)
    (tokens rest rest' : list string) :
  _get_current_node self = Some ch ->
  ch !! x = None ->
  ">" ∉ tokens ->
  _rm (x :: rest') (_mkdir (x :: rest) self).1.1 = (self, "", inr tt) /\
  _rm (x :: rest') (_echo (tokens ++ ">" :: x :: rest) self).1.1 = (self, "", inr tt).
Proof.
  intros Hcur Hx Hgt. split.
  - rewrite (mkdir_run self ch Hcur), Hx. simpl fst.
    rewrite (rm_run _ _ (updated_current_node self ch Hcur _)), lookup_insert_eq.
    rewrite decide_True by done.
    rewrite (updated_undone self ch); [done..|]. by apply delete_insert_id.
  - rewrite (echo_run self ch Hcur) by done. simpl fst.
    rewrite (rm_run _ _ (updated_current_node self ch Hcur _)), lookup_insert_eq.
    rewrite (updated_undone self ch); [done..|]. by apply delete_insert_id.
Qed.

Lemma create_then_rm_witness :
  _get_current_node (__init__ "user") = Some seed_home /\
  seed_home !! "x" = None /\
  (">" ∉ ["a"; "b"]) /\
  _rm ("x" :: []) (_mkdir ("x" :: []) (__init__ "user")).1.1 = (__init__ "user", "", inr tt) /\
  _rm ("x" :: []) (_echo (["a"; "b"] ++ ">" :: "x" :: []) (__init__ "user")).1.1
    = (__init__ "user", "", inr tt).
Proof.
  assert (H1 : _get_current_node (__init__ "user") = Some seed_home)
    by (vm_compute; reflexivity).
  assert (H2 : seed_home !! "x" = None) by (vm_compute; reflexivity).
  assert (H3 : ">" ∉ ["a"; "b"]) by compute_done.
  split; [exact H1|]. split; [exact H2|]. split; [exact H3|].
  exact (create_then_rm (__init__ "user") seed_home "x" ["a"; "b"] [] [] H1 H2 H3).
Defined.

(** X7. Entering a directory and coming back: for a child [path] of the
    current directory that is a directory, [cd path] moves, silently, to
    that child, and [cd ..] from there restores the session exactly. *)
Theorem cd_child_then_parent (self : PyOS) (ch children : directory)
    (path : string) (rest rest' : list string) :
  _get_current_node self = Some ch ->
  path <> "/" ->
  path <> ".." ->
  ch !! path = Some (Dir children) ->
  exists self1,
    _cd (path :: rest) self = (self1, "", inr tt) /\
    current_path self1 = current_path self ++ [path] /\
    _get_current_node self1 = Some children /\
    _cd (".." :: rest') self1 = (self, "", inr tt).
Proof.
  intros Hcur Hroot Hup Hpath. eexists. split.
  { rewrite (cd_name_run self ch Hcur) by done. by rewrite Hpath. }
  split; [done|]. split.
  - unfold _get_current_node, _get_node_from_path in *. simpl.
    rewrite walk_app, Hcur. simpl. by rewrite Hpath.
  - rewrite cd_parent_run. simpl. rewrite removelast_last. by destruct self.
Qed.

Lemma cd_child_then_parent_witness :
  _get_current_node (typed ["cd /"]) = Some (file_system (__init__ "user")) /\
  "etc" <> "/" /\
  "etc" <> ".." /\
  file_system (__init__ "user") !! "etc"
    = Some (Dir (<["os-release" := File "PyOS Version 1.0 (Simulated)"]> ∅)) /\
  exists self1,
    _cd ("etc" :: []) (typed ["cd /"]) = (self1, "", inr tt) /\
    current_path self1 = current_path (typed ["cd /"]) ++ ["etc"] /\
    _get_current_node self1
      = Some (<["os-release" := File "PyOS Version 1.0 (Simulated)"]> ∅) /\
    _cd (".." :: []) self1 = (typed ["cd /"], "", inr tt).
Proof.
  assert (H1 : _get_current_node (typed ["cd /"]) = Some (file_system (__init__ "user")))
    by (vm_compute; reflexivity).
  assert (H2 : "etc" <> "/") by discriminate.
  assert (H3 : "etc" <> "..") by discriminate.
  assert (H4 : file_system (__init__ "user") !! "etc"
               = Some (Dir (<["os-release" := File "PyOS Version 1.0 (Simulated)"]> ∅)))
    by (vm_compute; reflexivity).
  repeat (split; [assumption|]).
  exact (cd_child_then_parent (typed ["cd /"]) _ _ "etc" [] [] H1 H2 H3 H4).
Defined.

(** ** What each command leaves alone *)

Section Stays.

Context {A B : Type} (R : PyOS -> PyOS -> Prop) `{!Reflexive R, !Transitive R}.

Lemma stays_ret (a : A) : stays R (ret a).
Proof. by intros self. Qed.

Lemma stays_raise (e : exn) : stays R (@raise A e).
Proof. by intros self. Qed.

Lemma stays_bind (m : sh A) (k : A -> sh B) :
  stays R m -> (forall a, stays R (k a)) -> stays R (bind m k).
Proof.
  intros Hm Hk self. unfold bind. specialize (Hm self).
  destruct (m self) as [[self1 out1] [e|a]]; [done|].
  specialize (Hk a self1). destruct (k a self1) as [[self2 out2] r].
  by etrans.
Qed.

Lemma stays_try_except (body : sh A) handles (handler : exn -> sh A) :
  stays R body -> (forall e, stays R (handler e)) ->
  stays R (try_except body handles handler).
Proof.
  intros Hb Hh self. unfold try_except. specialize (Hb self).
  destruct (body self) as [[self1 out1] [e|a]]; [|done].
  destruct (handles e); [|done].
  specialize (Hh e self1). destruct (handler e self1) as [[self2 out2] r].
  by etrans.
Qed.

End Stays.

Section StaysPrimitives.

Context (R : PyOS -> PyOS -> Prop) `{!Reflexive R, !Transitive R}.

Lemma stays_get_self : stays R get_self.
Proof. by intros self. Qed.

Lemma stays_print_end x e : stays R (print_end x e).
Proof. by intros self. Qed.

Lemma stays_print x : stays R (print x).
Proof. by intros self. Qed.

Lemma stays_modify_self f : (forall self, R self (f self)) -> stays R (modify_self f).
Proof. intros Hf self. apply Hf. Qed.

Lemma stays_subscript_children node : stays R (subscript_children node).
Proof. destruct node; by intros self. Qed.

Lemma stays_getitem d k : stays R (getitem d k).
Proof. unfold getitem. destruct (d !! k); by intros self. Qed.

Lemma stays_index l x : stays R (index l x).
Proof. unfold index. destruct (index_from l x 0); by intros self. Qed.

Lemma stays_getitem_list l i : stays R (getitem_list l i).
Proof. unfold getitem_list. destruct (l !! i); by intros self. Qed.

Lemma stays_for_each {A} (l : list A) body :
  (forall x, stays R (body x)) -> stays R (for_each l body).
Proof.
  intros Hbody. induction l as [|x l IH]; simpl; [by intros self|].
  by apply stays_bind.
Qed.

End StaysPrimitives.

#[global] Instance same_tree_refl : Reflexive same_tree.
Proof. by intros self. Qed.

#[global] Instance same_tree_trans : Transitive same_tree.
Proof. intros a b c [Hu Hf] [Hu' Hf']. split; congruence. Qed.

#[global] Instance same_elsewhere_refl : Reflexive same_elsewhere.
Proof. by intros self. Qed.

#[global] Instance same_elsewhere_trans : Transitive same_elsewhere.
Proof.
  intros a b c (Hu & Hp & Hq) (Hu' & Hp' & Hq'). repeat split; try congruence.
  intros q Hdiv. rewrite Hq' by (by rewrite Hp). by apply Hq.
Qed.

(** The in-place updates change nothing but the current directory. *)
Lemma updated_same_elsewhere f self : same_elsewhere self (updated f self).
Proof.
  repeat split. intros q Hdiv. by apply update_dir_frame.
Qed.

Create HintDb stays.

#[local] Hint Resolve stays_ret stays_raise stays_get_self stays_print_end
  stays_print stays_subscript_children stays_getitem stays_index
  stays_getitem_list : stays.
Ltac stays_side :=
  lazymatch goal with
  | |- stays _ _ => idtac
  | |- forall _, stays _ _ => intros ?
  | |- _ => apply _
  end.

#[local] Hint Extern 2 (stays _ (bind _ _)) =>
  apply stays_bind; stays_side : stays.
#[local] Hint Extern 2 (stays _ (for_each _ _)) =>
  apply stays_for_each; stays_side : stays.
#[local] Hint Extern 2 (stays _ (try_except _ _ _)) =>
  apply stays_try_except; stays_side : stays.
#[local] Hint Extern 2 (stays _ (setitem_current _ _)) =>
  apply stays_modify_self; intros ?; apply updated_same_elsewhere : stays.
#[local] Hint Extern 2 (stays _ (delitem_current _)) =>
  apply stays_modify_self; intros ?; apply updated_same_elsewhere : stays.
#[local] Hint Extern 1 (Reflexive _) => apply _ : stays.
#[local] Hint Extern 1 (Transitive _) => apply _ : stays.
#[local] Hint Extern 5 (stays _ (match ?x with _ => _ end)) =>
  destruct x : stays.
#[local] Hint Extern 5 (stays _ (if ?x then _ else _)) =>
  destruct x : stays.

Ltac stays_handler h := unfold h; auto 20 with stays.

Lemma readers_stay (R : PyOS -> PyOS -> Prop) `{!Reflexive R, !Transitive R}
    (now : string) (args : list string) :
  stays R (_help args) /\ stays R (_ls args) /\ stays R (_cat args) /\
  stays R (_pwd args) /\ stays R (_date now args) /\ stays R (_exit args).
Proof.
  split; [|split; [|split; [|split; [|split]]]].
  - stays_handler _help.
  - stays_handler _ls.
  - stays_handler _cat.
  - stays_handler _pwd.
  - apply stays_print; apply _.
  - stays_handler _exit.
Qed.

Lemma writers_stay (args : list string) :
  stays same_elsewhere (_mkdir args) /\ stays same_elsewhere (_echo args) /\
  stays same_elsewhere (_rm args).
Proof.
  split; [|split].
  - stays_handler _mkdir.
  - stays_handler _echo.
  - stays_handler _rm.
Qed.

Lemma cd_stays (args : list string) : stays same_tree (_cd args).
Proof.
  unfold _cd. destruct args as [|path rest].
  { apply stays_modify_self. by intros self. }
  destruct (decide (path = "/")); [apply stays_modify_self; by intros self|].
  destruct (decide (path = "..")).
  { apply stays_modify_self. intros self. by destruct (current_path self). }
  apply stays_bind; stays_side; [auto with stays|].
  apply stays_bind; stays_side; [auto with stays|].
  lazymatch goal with
  | |- stays _ (match ?item with _ => _ end) => destruct item as [[?|?]|]
  end; auto with stays.
  apply stays_modify_self. by intros self.
Qed.

Lemma commands_stay (now command : string) (handler : list string -> sh unit)
    (args : list string) :
  _get_commands now !! command = Some handler ->
  (command = "cd" /\ stays same_tree (handler args)) \/
  (command ∈ ["mkdir"; "echo"; "rm"] /\ stays same_elsewhere (handler args)) \/
  (stays same_tree (handler args) /\ stays same_elsewhere (handler args)).
Proof.
  destruct (readers_stay same_tree now args) as (Ht1 & Ht2 & Ht3 & Ht4 & Ht5 & Ht6).
  destruct (readers_stay same_elsewhere now args) as (He1 & He2 & He3 & He4 & He5 & He6).
  destruct (writers_stay args) as (Hw1 & Hw2 & Hw3).
  pose proof (cd_stays args) as Hcd.
  unfold _get_commands. rewrite !list_to_map_cons, list_to_map_nil.
  intros Hlook.
  repeat (apply lookup_insert_Some in Hlook as [[<- <-]|[_ Hlook]];
          [first [ by left | by right; right | right; left; split; [set_solver|done] ]|]).
  by rewrite lookup_empty in Hlook.
Qed.

(** X8. What a line can change.  No line changes the user; only [cd]
    changes the current path; only [mkdir], [echo] and [rm] change the
    tree; and whatever the line, a path that parts ways with the current
    path resolves afterwards to what it resolved to before. *)
Theorem dispatch_frame (now user_input command : string) (args : list string)
    (self : PyOS) :
  split user_input = command :: args ->
  user (loop_body now user_input self).1.1 = user self /\
  (command <> "cd" ->
   current_path (loop_body now user_input self).1.1 = current_path self) /\
  (command ∉ ["mkdir"; "echo"; "rm"] ->
   file_system (loop_body now user_input self).1.1 = file_system self) /\
  (forall q, diverge (current_path self) q ->
     _get_node_from_path (loop_body now user_input self).1.1 q
       = _get_node_from_path self q).
Proof.
  intros Hsplit. rewrite (loop_body_dispatch _ _ _ _ _ Hsplit).
  destruct (_get_commands now !! command) as [handler|] eqn:Hlook; [|done].
  rewrite try_except_print_state.
  destruct (commands_stay _ _ _ args Hlook)
    as [[-> Ht]|[[Hw He]|[Ht He]]].
  - destruct (Ht self) as [Hu Hf]. repeat split; try done.
    intros q _. unfold _get_node_from_path. by rewrite Hf.
  - destruct (He self) as (Hu & Hp & Hq). by repeat split.
  - destruct (Ht self) as [Hu Hf]. destruct (He self) as (_ & Hp & Hq).
    by repeat split.
Qed.

Lemma dispatch_frame_witness :
  split "rm welcome.txt" = "rm" :: ["welcome.txt"] /\
  user (loop_body "" "rm welcome.txt" (__init__ "user")).1.1 = user (__init__ "user") /\
  ("rm" <> "cd" ->
   current_path (loop_body "" "rm welcome.txt" (__init__ "user")).1.1
     = current_path (__init__ "user")) /\
  ("rm" ∉ ["mkdir"; "echo"; "rm"] ->
   file_system (loop_body "" "rm welcome.txt" (__init__ "user")).1.1
     = file_system (__init__ "user")) /\
  (forall q, diverge (current_path (__init__ "user")) q ->
     _get_node_from_path (loop_body "" "rm welcome.txt" (__init__ "user")).1.1 q
       = _get_node_from_path (__init__ "user") q).
Proof.
  assert (H1 : split "rm welcome.txt" = "rm" :: ["welcome.txt"]) by reflexivity.
  split; [exact H1|].
  exact (dispatch_frame "" "rm welcome.txt" "rm" ["welcome.txt"] (__init__ "user") H1).
Defined.

(** [/etc] parts ways with [/home/user] at the first segment. *)
Example etc_is_elsewhere :
  diverge ["home"; "user"] ["etc"] /\
  _get_node_from_path (typed ["rm welcome.txt"; "mkdir etc"; "echo x > home"]) ["etc"]
    = _get_node_from_path (__init__ "user") ["etc"].
Proof.
  split; [|vm_compute; reflexivity].
  exists [], "home", "etc", ["user"], []. by repeat split.
Qed.

(** ** The current path, line by line *)

Lemma init_resolves (user : string) : current_path_resolves (__init__ user).
Proof.
  exists seed_home.
  unfold _get_current_node, _get_node_from_path, __init__, seed_home.
  cbn [current_path file_system walk]. by rewrite !lookup_insert_eq.
Qed.

(** X9. A line keeps the current path resolving, except that [cd]
    without an argument needs the directory [home/<user>] to exist: it goes
    there without looking. *)
Theorem line_keeps_current_path (now user_input : string) (self : PyOS) :
  current_path_resolves self ->
  (split user_input = ["cd"] ->
   is_Some (_get_node_from_path self ["home"; user self])) ->
  current_path_resolves (loop_body now user_input self).1.1.
Proof.
  intros Hres Hhome.
  destruct (decide (split user_input = ["cd"])) as [Hcd|Hcd].
  - rewrite (loop_body_dispatch _ _ _ _ _ Hcd).
    destruct (commands_known now) as (_ & _ & -> & _).
    rewrite try_except_print_state. exact (Hhome Hcd).
  - by apply loop_body_keeps_current_path.
Qed.

Lemma line_keeps_current_path_witness :
  current_path_resolves (typed ["cd /"]) /\
  (split " cd " = ["cd"] ->
   is_Some (_get_node_from_path (typed ["cd /"]) ["home"; user (typed ["cd /"])])) /\
  current_path_resolves (loop_body "" " cd " (typed ["cd /"])).1.1.
Proof.
  assert (H1 : current_path_resolves (typed ["cd /"])) by (vm_compute; eauto).
  assert (H2 : split " cd " = ["cd"] ->
               is_Some (_get_node_from_path (typed ["cd /"])
                          ["home"; user (typed ["cd /"])]))
    by (intros _; vm_compute; eauto).
  split; [exact H1|]. split; [exact H2|].
  exact (line_keeps_current_path "" " cd " (typed ["cd /"]) H1 H2).
Defined.

(** X10. A new session, for any user, keeps a current path that resolves
    for as long as no [cd] without an argument is typed: neither [rm] nor
    [echo] can take the current directory, or one above it, away. *)
Theorem fresh_session_resolves (user now : string) (lines : list string) :
  Forall (fun user_input => split user_input <> ["cd"]) lines ->
  current_path_resolves (session_after now lines (__init__ user)).1.
Proof.
  intros Hlines. apply session_keeps_current_path; [done|]. apply init_resolves.
Qed.

Lemma fresh_session_resolves_witness :
  Forall (fun user_input => split user_input <> ["cd"])
    ["rm welcome.txt"; "cd .."; "rm user"; "cd /"; "echo x > home"; "cd home"] /\
  current_path_resolves
    (session_after ""
       ["rm welcome.txt"; "cd .."; "rm user"; "cd /"; "echo x > home"; "cd home"]
       (__init__ "user")).1.
Proof.
  assert (H1 : Forall (fun user_input => split user_input <> ["cd"])
                 ["rm welcome.txt"; "cd .."; "rm user"; "cd /"; "echo x > home"; "cd home"])
    by (repeat constructor; discriminate).
  split; [exact H1|].
  exact (fresh_session_resolves "user" "" _ H1).
Defined.

(** ** A session whose current path does not resolve *)



Example dangling_session_goes_on :
  loop_body "" "mkdir x" dangling = (dangling, fault_line "mkdir", inr tt) /\
  loop_body "" "echo a > f" dangling = (dangling, fault_line "echo", inr tt) /\
  loop_body "" "pwd" dangling = (dangling, "/home/user" +:+ nl, inr tt) /\
  _get_current_node (loop_body "" "cd .." dangling).1.1 = Some ∅.
Proof. repeat split; vm_compute; reflexivity. Qed.

(** ** exit *)

(** X12. A line whose first word is [exit] prints [Shutting down PyOS...]
    and ends the loop, whatever follows the word and whatever the session:
    the exit is not caught as a fault of the handler, the session is left
    as it is, and no later input is read. *)
Theorem exit_ends_loop (now user_input : string) (args : list string)
    (events : list input_event) (self : PyOS) :
  split user_input = "exit" :: args ->
  loop_body now user_input self
    = (self, "Shutting down PyOS..." +:+ nl, inl (SystemExit 0)) /\
  loop (Line now user_input :: events) self
    = (self, _get_prompt self +:+ "Shutting down PyOS..." +:+ nl, Terminated).
Proof.
  intros Hsplit.
  assert (Hbody : loop_body now user_input self
                  = (self, "Shutting down PyOS..." +:+ nl, inl (SystemExit 0))).
  { rewrite (loop_body_dispatch _ _ _ _ _ Hsplit).
    by destruct (commands_known now) as (_ & _ & _ & _ & _ & _ & _ & _ & _ & ->). }
  split; [done|]. simpl loop. by rewrite Hbody.
Qed.

Lemma exit_ends_loop_witness :
  split "exit now please" = "exit" :: ["now"; "please"] /\
  loop_body "" "exit now please" dangling
    = (dangling, "Shutting down PyOS..." +:+ nl, inl (SystemExit 0)) /\
  loop (Line "" "exit now please" :: [Line "" "rm welcome.txt"]) dangling
    = (dangling, _get_prompt dangling +:+ "Shutting down PyOS..." +:+ nl, Terminated).
Proof.
  assert (H1 : split "exit now please" = "exit" :: ["now"; "please"]) by reflexivity.
  split; [exact H1|].
  exact (exit_ends_loop "" "exit now please" ["now"; "please"]
           [Line "" "rm welcome.txt"] dangling H1).
Defined.

(** ** Words *)

Lemma append_empty_r (s : string) : s +:+ "" = s.
Proof.
  induction s as [|c s IH]; [done|].
  change (String c (s +:+ "") = String c s). by rewrite IH.
Qed.

Lemma append_assoc (a b c : string) : (a +:+ b) +:+ c = a +:+ (b +:+ c).
Proof.
  induction a as [|x a IH]; [done|].
  change (String x ((a +:+ b) +:+ c) = String x (a +:+ (b +:+ c))). by rewrite IH.
Qed.

(** A white-space character is recognised by its own bytes. *)
Lemma space_width_prefix (a b : string) :
  space_width a <> 0 -> space_width (a +:+ b) = space_width a.
Proof.
  destruct a as [|c1 [|c2 [|c3 a]]]; [done|..].
  - change (String c1 "" +:+ b) with (String c1 b). unfold space_width.
    by destruct (isspace c1).
  - change (String c1 (String c2 "") +:+ b) with (String c1 (String c2 b)).
    unfold space_width. destruct (isspace c1); [done|].
    by destruct (isspace2 c1 c2).
  - done.
Qed.

Lemma isspace_width (c : ascii) (s : string) :
  isspace c = true -> space_width (String c s) = 1.
Proof. intros Hc. unfold space_width. by rewrite Hc. Qed.

(** The later bytes of a white-space character are not ASCII. *)
Lemma isspace2_second (c1 c2 : ascii) :
  isspace2 c1 c2 = true -> 128 <= nat_of_ascii c2.
Proof.
  unfold isspace2. cbv zeta.
  rewrite !andb_true_iff, !orb_true_iff, !Nat.eqb_eq. lia.
Qed.

Lemma isspace3_later (c1 c2 c3 : ascii) :
  isspace3 c1 c2 c3 = true -> 128 <= nat_of_ascii c2 /\ 128 <= nat_of_ascii c3.
Proof.
  unfold isspace3. cbv zeta.
  repeat (rewrite ?orb_true_iff, ?andb_true_iff).
  rewrite ?Nat.eqb_eq, ?Nat.leb_le. lia.
Qed.

(** An ASCII byte, or the end, after [a] completes no white-space
    character that [a] has begun. *)
Lemma space_width_before_ascii (a s : string) :
  a <> "" -> space_width a = 0 ->
  (s = "" \/ exists c s', s = String c s' /\ nat_of_ascii c < 128) ->
  space_width (a +:+ s) = 0.
Proof.
  intros Ha Hwidth [->|(c & s' & -> & Hc)]; [by rewrite append_empty_r|].
  destruct a as [|c1 [|c2 [|c3 a]]]; [done|..].
  - change (String c1 "" +:+ String c s') with (String c1 (String c s')).
    unfold space_width in *. destruct (isspace c1); [done|].
    destruct (isspace2 c1 c) eqn:H2; [apply isspace2_second in H2; lia|].
    destruct s' as [|c3 s']; [done|].
    destruct (isspace3 c1 c c3) eqn:H3; [apply isspace3_later in H3; lia|done].
  - change (String c1 (String c2 "") +:+ String c s')
      with (String c1 (String c2 (String c s'))).
    unfold space_width in *. destruct (isspace c1); [done|].
    destruct (isspace2 c1 c2); [done|].
    destruct (isspace3 c1 c2 c) eqn:H3; [apply isspace3_later in H3; lia|done].
  - done.
Qed.

(** Boolean tests as propositions. *)
Ltac bool_to_prop :=
  repeat (rewrite ?orb_true_iff, ?andb_true_iff);
  rewrite ?Nat.eqb_eq, ?Nat.leb_le.

(** The table of white space, by the number of bytes. *)
Lemma white_space_by_length :
  white_space =
    [[9]; [10]; [11]; [12]; [13]; [28]; [29]; [30]; [31]; [32]] ++
    [[194; 133]; [194; 160]] ++
    [[225; 154; 128];
     [226; 128; 128]; [226; 128; 129]; [226; 128; 130]; [226; 128; 131];
     [226; 128; 132]; [226; 128; 133]; [226; 128; 134]; [226; 128; 135];
     [226; 128; 136]; [226; 128; 137]; [226; 128; 138];
     [226; 128; 168]; [226; 128; 169]; [226; 128; 175];
     [226; 129; 159];
     [227; 128; 128]].
Proof. reflexivity. Qed.

Lemma third_byte_table (n : nat) :
  existsb (fun b => n =? b)%nat
    [128; 129; 130; 131; 132; 133; 134; 135; 136; 137; 138; 168; 169; 175]
  = ((128 <=? n)%nat && (n <=? 138)%nat) || (n =? 168)%nat || (n =? 169)%nat || (n =? 175)%nat.
Proof.
  cbn [existsb]. apply eq_true_iff_eq. bool_to_prop. lia.
Qed.

(** The tests of the tokeniser recognise exactly the encodings of the
    table. *)
Lemma white_space_table (s : string) :
  existsb (fun bytes => starts_with bytes s) white_space
  = match s with
    | String c1 s1 =>
        isspace c1 ||
        match s1 with
        | String c2 s2 =>
            isspace2 c1 c2 ||
            match s2 with
            | String c3 _ => isspace3 c1 c2 c3
            | EmptyString => false
            end
        | EmptyString => false
        end
    | EmptyString => false
    end.
Proof.
  rewrite white_space_by_length, !existsb_app.
  destruct s as [|c1 s1]; [done|]. f_equal.
  { cbn [existsb starts_with]. rewrite ?andb_true_r. unfold isspace. cbv zeta.
    generalize (nat_of_ascii c1) as n1. intros n1.
    apply eq_true_iff_eq. bool_to_prop. lia. }
  destruct s1 as [|c2 s2].
  { cbn [existsb starts_with]. by rewrite ?andb_false_r. }
  f_equal.
  { cbn [existsb starts_with]. rewrite ?andb_true_r, ?orb_false_r.
    unfold isspace2. cbv zeta.
    generalize (nat_of_ascii c1) as n1. generalize (nat_of_ascii c2) as n2. intros n2 n1.
    apply eq_true_iff_eq. bool_to_prop. lia. }
  destruct s2 as [|c3 s3].
  { cbn [existsb starts_with]. by rewrite ?andb_false_r. }
  cbn [existsb starts_with]. unfold isspace3. cbv zeta.
  generalize (nat_of_ascii c1) as n1. generalize (nat_of_ascii c2) as n2.
  generalize (nat_of_ascii c3) as n3. intros n3 n2 n1.
  rewrite <- (third_byte_table n3). cbn [existsb].
  btauto.
Qed.

Lemma has_space_cons (c : ascii) (s : string) :
  has_space (String c s) = negb (space_width (String c s) =? 0)%nat || has_space s.
Proof.
  cbn [has_space]. f_equal. rewrite white_space_table. unfold space_width.
  destruct (isspace c); [done|]. destruct s as [|c2 s]; [done|].
  destruct (isspace2 c c2); [done|]. destruct s as [|c3 s]; [done|].
  by destruct (isspace3 c c2 c3).
Qed.

Lemma no_space_before_alone (w s : string) :
  no_space_before w s -> has_space w = false.
Proof.
  induction w as [|c w IH]; [done|]. intros [Hwidth Hw]. rewrite has_space_cons.
  rewrite (IH Hw), orb_false_r.
  destruct (space_width (String c w)) as [|k] eqn:Hk; [done|].
  rewrite space_width_prefix in Hwidth by (by rewrite Hk). by rewrite Hk in Hwidth.
Qed.

Lemma no_space_before_snoc (w : string) (c : ascii) (s : string) :
  no_space_before w (String c s) ->
  space_width (String c s) = 0 ->
  no_space_before (w +:+ String c "") s.
Proof.
  intros Hw Hc. induction w as [|x w IH]; [done|].
  destruct Hw as [Hwidth Hw]. split; [|by apply IH].
  change (String x w +:+ String c "") with (String x (w +:+ String c "")).
  change (space_width (String x ((w +:+ String c "") +:+ s)) = 0).
  rewrite append_assoc. exact Hwidth.
Qed.

Lemma no_space_before_ascii (t s : string) :
  has_space t = false ->
  (s = "" \/ exists c s', s = String c s' /\ nat_of_ascii c < 128) ->
  no_space_before t s.
Proof.
  intros Ht Hs. induction t as [|c t IH]; [done|].
  rewrite has_space_cons in Ht. apply orb_false_iff in Ht as [Hc Ht].
  split; [|by apply IH].
  apply space_width_before_ascii; [done| |done].
  apply negb_false_iff, Nat.eqb_eq in Hc. exact Hc.
Qed.

Lemma split_from_words (skip : nat) (w s : string) :
  w = "" \/ skip = 0 -> no_space_before w s -> Forall word (split_from skip w s).
Proof.
  revert skip w. induction s as [|c s IH]; intros skip w Hskip Hw.
  - cbn [split_from]. destruct w as [|x w]; [constructor|].
    repeat constructor; [done|]. by eapply no_space_before_alone.
  - destruct skip as [|k]; cbn [split_from].
    + destruct (space_width (String c s)) as [|k] eqn:Hwidth.
      * apply IH; [by right|]. by apply no_space_before_snoc.
      * destruct w as [|x w]; [by apply IH; [left|]|].
        constructor; [|by apply IH; [left|]].
        split; [done|]. by eapply no_space_before_alone.
    + destruct Hskip as [->|?]; [|done]. by apply IH; [left|].
Qed.

(** X13. Every word that [split] finds in a line is non-empty and free of
    white space: the verb and the arguments that a handler receives, hence
    every name that a line can create, are such words. *)
Theorem split_gives_words (user_input : string) : Forall word (split user_input).
Proof. by apply split_from_words; [left|]. Qed.

(** Reading a word that follows the bytes read so far. *)
Lemma split_from_word (w t s : string) :
  no_space_before t s -> split_from 0 w (t +:+ s) = split_from 0 (w +:+ t) s.
Proof.
  revert w. induction t as [|c t IH]; intros w Ht.
  - by rewrite append_empty_r.
  - destruct Ht as [Hwidth Ht].
    change (String c t +:+ s) with (String c (t +:+ s)) in *.
    cbn [split_from]. rewrite Hwidth. rewrite IH by done.
    by rewrite append_assoc.
Qed.

(** X14. Joining words, non-empty and free of white space of any kind, by
    single spaces and splitting the result gives the words back: the text
    that [echo] stores, typed again as the text of an [echo], is taken
    apart into the same words. *)
Theorem split_join (words : list string) :
  Forall word words -> split (join " " words) = words.
Proof.
  unfold split. induction 1 as [|t words [Hne Ht] Hwords IH]; [done|].
  destruct words as [|t' words].
  - change (join " " [t]) with t.
    replace (split_from 0 "" t) with (split_from 0 "" (t +:+ ""))
      by (by rewrite append_empty_r).
    rewrite split_from_word by (apply no_space_before_ascii; [done|by left]).
    cbn [split_from]. by destruct t.
  - change (join " " (t :: t' :: words)) with (t +:+ " " +:+ join " " (t' :: words)).
    remember (join " " (t' :: words)) as text eqn:Htext.
    change (" " +:+ text) with (String " "%char text).
    rewrite split_from_word; last first.
    { apply no_space_before_ascii; [done|]. right. exists " "%char, text.
      split; [done|]. vm_compute. lia. }
    change ("" +:+ t) with t. cbn [split_from].
    rewrite isspace_width by done. rewrite IH. by destruct t.
Qed.

Lemma split_join_witness :
  Forall word ["hello"; "world"] /\
  split (join " " ["hello"; "world"]) = ["hello"; "world"].
Proof.
  assert (H1 : Forall word ["hello"; "world"])
    by (repeat constructor; discriminate).
  split; [exact H1|].
  exact (split_join ["hello"; "world"] H1).
Defined.

Example echo_collapses_white_space :
  (loop_body "" "cat f" (typed ["echo   a    b   > f"])).1.2 = "a b" +:+ nl /\
  (loop_body "" "cat f" (typed ["echo" +:+ em_space +:+ "a" +:+ nbsp +:+ "b > f"])).1.2
    = "a b" +:+ nl.
Proof. split; vm_compute; reflexivity. Qed.

(** A text with a no-break space in it is not a word, and [split] takes
    it apart. *)
Example no_break_space_is_no_word :
  has_space ("a" +:+ nbsp +:+ "b") = true /\
  split ("a" +:+ nbsp +:+ "b") = ["a"; "b"].
Proof. split; vm_compute; reflexivity. Qed.

(** ** pwd after cd *)

Lemma join_snoc (sep : string) (p : list string) (x : string) :
  p <> [] -> join sep (p ++ [x]) = join sep p +:+ sep +:+ x.
Proof.
  induction p as [|a p IH]; intros Hp; [done|].
  destruct p as [|b p]; [done|].
  change (join sep ((a :: b :: p) ++ [x]))
    with (a +:+ sep +:+ join sep ((b :: p) ++ [x])).
  rewrite IH by done.
  change (join sep (a :: b :: p)) with (a +:+ sep +:+ join sep (b :: p)).
  by rewrite !append_assoc.
Qed.

(** X15. After a [cd] into a directory [path] of the current directory,
    [pwd] prints the path it printed before, followed by [/] and [path];
    from the root, where it printed [/], it prints [/] and [path]. *)
Theorem pwd_after_cd (self : PyOS) (ch children : directory) (path : string)
    (rest args : list string) :
  _get_current_node self = Some ch ->
  path <> "/" ->
  path <> ".." ->
  ch !! path = Some (Dir children) ->
  _pwd args (_cd (path :: rest) self).1.1 =
    ((_cd (path :: rest) self).1.1,
     (match current_path self with
      | [] => ""
      | _ :: _ => path_str self
      end +:+ "/" +:+ path) +:+ nl,
     inr tt).
Proof.
  intros Hcur Hroot Hup Hpath.
  rewrite (cd_name_run self ch Hcur) by done. rewrite Hpath. simpl fst.
  unfold _pwd. rewrite bind_get_self. unfold print, print_end. do 2 f_equal.
  f_equal. unfold path_str. simpl current_path.
  destruct (current_path self) as [|seg p]; [done|].
  change ((seg :: p) ++ [path]) with (seg :: (p ++ [path])).
  cbv beta iota.
  change (seg :: (p ++ [path])) with ((seg :: p) ++ [path]).
  rewrite join_snoc by done. by rewrite append_assoc.
Qed.

Lemma pwd_after_cd_witness :
  _get_current_node (typed ["cd /"]) = Some (file_system (__init__ "user")) /\
  "home" <> "/" /\
  "home" <> ".." /\
  file_system (__init__ "user") !! "home" = Some (Dir (<["user" := Dir seed_home]> ∅)) /\
  _pwd [] (_cd ("home" :: []) (typed ["cd /"])).1.1 =
    ((_cd ("home" :: []) (typed ["cd /"])).1.1,
     (match current_path (typed ["cd /"]) with
      | [] => ""
      | _ :: _ => path_str (typed ["cd /"])
      end +:+ "/" +:+ "home") +:+ nl,
     inr tt).
Proof.
  assert (H1 : _get_current_node (typed ["cd /"]) = Some (file_system (__init__ "user")))
    by (vm_compute; reflexivity).
  assert (H2 : "home" <> "/") by discriminate.
  assert (H3 : "home" <> "..") by discriminate.
  assert (H4 : file_system (__init__ "user") !! "home"
               = Some (Dir (<["user" := Dir seed_home]> ∅)))
    by (vm_compute; reflexivity).
  repeat (split; [assumption|]).
  exact (pwd_after_cd (typed ["cd /"]) _ _ "home" [] [] H1 H2 H3 H4).
Defined.

Example pwd_lines :
  (loop_body "" "pwd" (typed ["cd /"])).1.2 = "/" +:+ nl /\
  (loop_body "" "pwd" (typed ["cd /"; "cd home"])).1.2 = "/home" +:+ nl /\
  (loop_body "" "pwd" (typed ["mkdir a"; "cd a"])).1.2 = "/home/user/a" +:+ nl.
Proof. repeat split; vm_compute; reflexivity. Qed.

(** ** ls after mkdir *)

(** X16. After [mkdir x] in the current directory, whatever its outcome,
    the current directory holds [x] beside what it held before, and [ls]
    prints one entry for each of its names, in ascending order; the name
    [x] is listed exactly once, and its entry is [x/], unless [x] already
    named a file, which [mkdir] has left in place and [ls] shows as [x]. *)
Theorem mkdir_then_ls (self : PyOS) (ch : directory) (x : string)
    (rest args : list string) :
  _get_current_node self = Some ch ->
  exists (ch1 : directory) (names entries : list string) (i : nat),
    _get_current_node (_mkdir (x :: rest) self).1.1 = Some ch1 /\
    is_Some (ch1 !! x) /\
    (forall other, other <> x -> ch1 !! other = ch !! other) /\
    _ls args (_mkdir (x :: rest) self).1.1
      = ((_mkdir (x :: rest) self).1.1, ls_text entries, inr tt) /\
    (forall name, name ∈ names <-> is_Some (ch1 !! name)) /\
    NoDup names /\
    StronglySorted (fun a b => String.leb a b = true) names /\
    Forall2 (fun name entry =>
               (exists children, ch1 !! name = Some (Dir children) /\ entry = name +:+ "/") \/
               (exists content, ch1 !! name = Some (File content) /\ entry = name))
            names entries /\
    length entries = length names /\
    names !! i = Some x /\
    (forall j, names !! j = Some x -> j = i) /\
    entries !! i = Some (match ch !! x with
                         | Some (File _) => x
                         | _ => x +:+ "/"
                         end).
Proof.
  intros Hcur.
  assert (exists ch1, _get_current_node (_mkdir (x :: rest) self).1.1 = Some ch1 /\
            (forall other, other <> x -> ch1 !! other = ch !! other) /\
            ch1 !! x = Some (match ch !! x with
                             | Some item => item
                             | None => Dir ∅
                             end)) as (ch1 & Hcur1 & Hother & Hitem).
  { rewrite (mkdir_run self ch Hcur).
    destruct (ch !! x) as [item|] eqn:Hx.
    - exists ch. by rewrite Hx.
    - eexists. split; [by apply updated_current_node|]. split.
      + intros other Hne. by apply lookup_insert_ne.
      + by rewrite lookup_insert_eq. }
  destruct (ls_listing _ _ args Hcur1)
    as (names & entries & Hin & Hnd & Hsort & Hall & Hrun).
  assert (x ∈ names) as Hx by (apply Hin; by eexists).
  apply list_elem_of_lookup in Hx as [i Hi].
  destruct (Forall2_lookup_l _ _ _ _ _ Hall Hi) as (entry & Hentry & Hshape).
  exists ch1, names, entries, i.
  split; [done|]. split; [by eexists|]. split; [done|]. split; [done|].
  split; [done|]. split; [done|]. split; [done|]. split; [done|].
  split; [symmetry; by eapply Forall2_length|]. split; [done|]. split.
  - intros j Hj. by eapply NoDup_lookup.
  - rewrite Hentry. f_equal. rewrite Hitem in Hshape.
    destruct Hshape as [(children & Heq & ->)|(content & Heq & ->)];
      destruct (ch !! x) as [[?|?]|]; congruence.
Qed.

Lemma mkdir_then_ls_witness :
  _get_current_node (__init__ "user") = Some seed_home /\
  exists (ch1 : directory) (names entries : list string) (i : nat),
    _get_current_node (_mkdir ("welcome.txt" :: []) (__init__ "user")).1.1 = Some ch1 /\
    is_Some (ch1 !! "welcome.txt") /\
    (forall other, other <> "welcome.txt" -> ch1 !! other = seed_home !! other) /\
    _ls [] (_mkdir ("welcome.txt" :: []) (__init__ "user")).1.1
      = ((_mkdir ("welcome.txt" :: []) (__init__ "user")).1.1, ls_text entries, inr tt) /\
    (forall name, name ∈ names <-> is_Some (ch1 !! name)) /\
    NoDup names /\
    StronglySorted (fun a b => String.leb a b = true) names /\
    Forall2 (fun name entry =>
               (exists children, ch1 !! name = Some (Dir children) /\ entry = name +:+ "/") \/
               (exists content, ch1 !! name = Some (File content) /\ entry = name))
            names entries /\
    length entries = length names /\
    names !! i = Some "welcome.txt" /\
    (forall j, names !! j = Some "welcome.txt" -> j = i) /\
    entries !! i = Some (match seed_home !! "welcome.txt" with
                         | Some (File _) => "welcome.txt"
                         | _ => "welcome.txt" +:+ "/"
                         end).
Proof.
  assert (H1 : _get_current_node (__init__ "user") = Some seed_home)
    by (vm_compute; reflexivity).
  split; [exact H1|].
  exact (mkdir_then_ls (__init__ "user") seed_home "welcome.txt" [] [] H1).
Defined.

Example mkdir_over_a_file :
  (loop_body "" "ls" (typed ["mkdir welcome.txt"; "mkdir x"])).1.2
    = "welcome.txt  x/  " +:+ nl.
Proof. vm_compute. reflexivity. Qed.

(** ** How a session ends *)

Lemma loop_body_returns (now user_input : string) (self : PyOS) :
  split user_input !! 0 <> Some "exit" ->
  exists self1 out1, loop_body now user_input self = (self1, out1, inr tt).
Proof.
  intros Hexit.
  destruct (loop_body_blank_or_verb now user_input self)
    as [[_ ->]|(command & args & Hsplit)]; [by eauto|].
  rewrite (loop_body_dispatch _ _ _ _ _ Hsplit).
  destruct (_get_commands now !! command) as [handler|] eqn:Hlook; [|by eauto].
  destruct (commands_lookup _ _ _ Hlook) as [->|Hcatch].
  { by rewrite Hsplit in Hexit. }
  destruct (handler args self) as [[self1 out1] [e|[]]] eqn:Hrun.
  - rewrite (try_except_raises _ _ _ _ _ _ _ Hrun), (Hcatch _ _ _ _ _ Hrun).
    by eauto.
  - rewrite (try_except_returns _ _ _ _ _ _ _ Hrun). by eauto.
Qed.

Lemma loop_body_exits (now user_input : string) (self : PyOS) :
  split user_input !! 0 = Some "exit" ->
  exists out1, loop_body now user_input self = (self, out1, inl (SystemExit 0)).
Proof.
  intros Hexit. destruct (split user_input) as [|command args] eqn:Hsplit; [done|].
  injection Hexit as ->.
  rewrite (loop_body_dispatch _ _ _ _ _ Hsplit).
  destruct (commands_known now) as (_ & _ & _ & _ & _ & _ & _ & _ & _ & ->).
  by eexists.
Qed.

(** X17. The loop stops exactly when one of its events is an [exit] line
    or the end of the input; over any other events, whatever the lines
    print or raise, it is still waiting at the prompt at the end. *)
Theorem loop_terminates_iff (events : list input_event) (self : PyOS) :
  (loop events self).2 = Terminated <-> Exists ends_session events.
Proof.
  revert self. induction events as [|event events IH]; intros self.
  - split; [discriminate|by inversion 1].
  - destruct (decide (ends_session event)) as [Hend|Hend].
    + split; [by left|intros _]. destruct event as [now user_input|]; [|done].
      destruct (loop_body_exits now user_input self Hend) as [out1 Hbody].
      simpl. by rewrite Hbody.
    + destruct event as [now user_input|]; [|by destruct Hend].
      destruct (loop_body_returns now user_input self Hend) as (self1 & out1 & Hbody).
      rewrite Exists_cons. simpl loop. rewrite Hbody.
      specialize (IH self1).
      destruct (loop events self1) as [[self2 out2] st]. simpl in *.
      rewrite IH. by intuition.
Qed.

Example sessions_end :
  (loop [Line "" "foo"; Line "" "ls"; Line "" "cd"; Line "" "cat"] dangling).2 = Running /\
  (loop [Line "" "foo"; Line "" " exit "; Line "" "ls"] dangling).2 = Terminated /\
  (run [Line "" "pwd"; Interrupt] (__init__ "user")).2 = Terminated.
Proof. repeat split; vm_compute; reflexivity. Qed.

(** ** Changes below the current directory *)

(** An update one level below [path] is seen from [path] as a new value
    of the child. *)
Lemma walk_update_child (path : list string) (x : string)
    (f : directory -> directory) (root d children : directory) :
  walk root path = Some d ->
  d !! x = Some (Dir children) ->
  walk (update_dir (path ++ [x]) f root) path = Some (<[x := Dir (f children)]> d).
Proof.
  revert root. induction path as [|seg path IH]; intros root Hw Hx; simpl in *.
  - injection Hw as ->. by rewrite Hx.
  - destruct (root !! seg) as [[c|content]|] eqn:Hseg; try discriminate.
    rewrite lookup_insert_eq. by apply IH.
Qed.

(** X18. What is created in a subdirectory is there when one comes back:
    after [cd x], a [mkdir y] or an [echo .. > y], and [cd ..], the current
    directory is the one before, except that its child [x] now holds [y]
    too. *)
Theorem child_update_seen_from_parent (self : PyOS) (ch children : directory)
    (x y : string) (tokens : list string) :
  _get_current_node self = Some ch ->
  x <> "/" ->
  x <> ".." ->
  ch !! x = Some (Dir children) ->
  children !! y = None ->
  ">" ∉ tokens ->
  _get_current_node
    (_cd [".."] (_mkdir [y] (_cd [x] self).1.1).1.1).1.1
    = Some (<[x := Dir (<[y := Dir ∅]> children)]> ch) /\
  _get_current_node
    (_cd [".."] (_echo (tokens ++ [">"; y]) (_cd [x] self).1.1).1.1).1.1
    = Some (<[x := Dir (<[y := File (join " " tokens)]> children)]> ch).
Proof.
  intros Hcur Hroot Hup Hx Hy Hgt.
  assert (Hcur1 : _get_current_node (set_current_path (current_path self ++ [x]) self)
                  = Some children).
  { unfold _get_current_node, _get_node_from_path in *. simpl.
    rewrite walk_app, Hcur. simpl. by rewrite Hx. }
  assert (Hcd : (_cd [x] self).1.1 = set_current_path (current_path self ++ [x]) self).
  { rewrite (cd_name_run self ch Hcur) by done. by rewrite Hx. }
  rewrite Hcd.
  assert (Hback : forall f,
    _get_current_node
      (_cd [".."] (updated f (set_current_path (current_path self ++ [x]) self))).1.1
    = Some (<[x := Dir (f children)]> ch)).
  { intros f. rewrite cd_parent_run. cbn [fst].
    unfold _get_current_node, _get_node_from_path, updated.
    cbn [current_path file_system set_current_path set_file_system].
    rewrite removelast_last. by apply walk_update_child. }
  split.
  - rewrite (mkdir_run _ _ Hcur1), Hy. cbn [fst]. apply Hback.
  - rewrite (echo_run _ _ Hcur1 tokens y [] Hgt). cbn [fst]. apply Hback.
Qed.

Lemma child_update_seen_from_parent_witness :
  _get_current_node (typed ["cd /"]) = Some (file_system (__init__ "user")) /\
  "etc" <> "/" /\
  "etc" <> ".." /\
  file_system (__init__ "user") !! "etc"
    = Some (Dir (<["os-release" := File "PyOS Version 1.0 (Simulated)"]> ∅)) /\
  (<["os-release" := File "PyOS Version 1.0 (Simulated)"]> ∅ : directory) !! "motd" = None /\
  (">" ∉ ["hi"]) /\
  _get_current_node
    (_cd [".."] (_mkdir ["motd"] (_cd ["etc"] (typed ["cd /"])).1.1).1.1).1.1
    = Some (<["etc" := Dir (<["motd" := Dir ∅]>
               (<["os-release" := File "PyOS Version 1.0 (Simulated)"]> ∅))]>
             (file_system (__init__ "user"))) /\
  _get_current_node
    (_cd [".."] (_echo (["hi"] ++ [">"; "motd"]) (_cd ["etc"] (typed ["cd /"])).1.1).1.1).1.1
    = Some (<["etc" := Dir (<["motd" := File (join " " ["hi"])]>
               (<["os-release" := File "PyOS Version 1.0 (Simulated)"]> ∅))]>
             (file_system (__init__ "user"))).
Proof.
  assert (H1 : _get_current_node (typed ["cd /"]) = Some (file_system (__init__ "user")))
    by (vm_compute; reflexivity).
  assert (H2 : "etc" <> "/") by discriminate.
  assert (H3 : "etc" <> "..") by discriminate.
  assert (H4 : file_system (__init__ "user") !! "etc"
               = Some (Dir (<["os-release" := File "PyOS Version 1.0 (Simulated)"]> ∅)))
    by (vm_compute; reflexivity).
  assert (H5 : (<["os-release" := File "PyOS Version 1.0 (Simulated)"]> ∅ : directory)
                 !! "motd" = None)
    by (vm_compute; reflexivity).
  assert (H6 : ">" ∉ ["hi"]) by compute_done.
  repeat (split; [assumption|]).
  exact (child_update_seen_from_parent (typed ["cd /"]) _ _ "etc" "motd" ["hi"]
           H1 H2 H3 H4 H5 H6).
Defined.
